(** * URL shortener: the Express handlers of [server/server.js]

    The development embeds the three request handlers of the service
    ([POST /url], [GET /url/:shortUrl] and the detached counter update) as
    functions over an explicit world made of the DynamoDB table, the DAX
    item cache, the console and the requests still in flight.  The handlers
    are modelled at the level of the library calls the source makes:
    [crypto.createHash], [dynamodb.query], [dynamodb.put],
    [dynamodb.update], [daxClient.get], [res.status(..).json(..)] and
    [res.redirect]. *)

From stdpp Require Import gmap strings list fin_maps.
From Stdlib Require Import ZArith String Ascii.

Local Open Scope string_scope.
Local Open Scope Z_scope.

(** ** SHA-256 (FIPS 180-4), as computed by
    [crypto.createHash('sha256').update(s).digest('hex')]

    A JavaScript string handed to [update] is hashed through its UTF-8
    encoding; a [string] here is that byte sequence.  Words are 32-bit
    unsigned integers carried in [Z], every addition wraps modulo 2^32. *)
Module SHA256.

Definition wrap32 (x : Z) : Z := x mod 2 ^ 32.

Definition add32 (x y : Z) : Z := wrap32 (x + y).

Definition rotr (n x : Z) : Z :=
  Z.lor (Z.shiftr x n) (wrap32 (Z.shiftl x (32 - n))).

Definition not32 (x : Z) : Z := Z.lxor x (2 ^ 32 - 1).

Definition Ch (x y z : Z) : Z := Z.lxor (Z.land x y) (Z.land (not32 x) z).

Definition Maj (x y z : Z) : Z :=
  Z.lxor (Z.lxor (Z.land x y) (Z.land x z)) (Z.land y z).

Definition Sigma0 (x : Z) : Z :=
  Z.lxor (Z.lxor (rotr 2 x) (rotr 13 x)) (rotr 22 x).

Definition Sigma1 (x : Z) : Z :=
  Z.lxor (Z.lxor (rotr 6 x) (rotr 11 x)) (rotr 25 x).

Definition sigma0 (x : Z) : Z :=
  Z.lxor (Z.lxor (rotr 7 x) (rotr 18 x)) (Z.shiftr x 3).

Definition sigma1 (x : Z) : Z :=
  Z.lxor (Z.lxor (rotr 17 x) (rotr 19 x)) (Z.shiftr x 10).

(** The first sixty-four primes. *)
Definition primes : list Z :=
  [2; 3; 5; 7; 11; 13; 17; 19; 23; 29; 31; 37; 41; 43; 47; 53; 59; 61; 67;
   71; 73; 79; 83; 89; 97; 101; 103; 107; 109; 113; 127; 131; 137; 139; 149;
   151; 157; 163; 167; 173; 179; 181; 191; 193; 197; 199; 211; 223; 227; 229;
   233; 239; 241; 251; 257; 263; 269; 271; 277; 281; 283; 293; 307; 311].

(** Integer cube root, one bit at a time from bit [bits - 1] down. *)
Fixpoint cube_root_bits (bits : nat) (n r : Z) : Z :=
  match bits with
  | O => r
  | S b =>
      let r' := r + 2 ^ Z.of_nat b in
      cube_root_bits b n (if r' * r' * r' <=? n then r' else r)
  end.

Definition cube_root (n : Z) : Z := cube_root_bits 40 n 0.

(** Round constants: the first 32 bits of the fractional parts of the
    cube roots of the first sixty-four primes. *)
Definition K : list Z :=
  Eval vm_compute in
    List.map (fun p => wrap32 (cube_root (p * 2 ^ 96))) primes.

(** Initial hash value: the first 32 bits of the fractional parts of the
    square roots of the first eight primes. *)
Definition H0 : list Z :=
  Eval vm_compute in
    List.map (fun p => wrap32 (Z.sqrt (p * 2 ^ 64))) (take 8 primes).

Definition bytes_of_string (s : string) : list Z :=
  List.map (fun c => Z.of_N (N_of_ascii c)) (list_ascii_of_string s).

(** Big-endian bytes of [x], [n] of them. *)
Fixpoint be_bytes (n : nat) (x : Z) : list Z :=
  match n with
  | O => []
  | S n' => Z.land (Z.shiftr x (8 * Z.of_nat n')) 255 :: be_bytes n' x
  end.

(** Padding: a single 1 bit, zeros up to 56 modulo 64 bytes, then the
    message length in bits on eight bytes. *)
Definition pad (msg : list Z) : list Z :=
  let len := Z.of_nat (List.length msg) in
  let zeros := Z.to_nat ((55 - len) mod 64) in
  msg ++ [128] ++ List.repeat 0 zeros ++ be_bytes 8 (8 * len).

Fixpoint be_words (n : nat) (bs : list Z) : list Z :=
  match n, bs with
  | S n', b3 :: b2 :: b1 :: b0 :: rest =>
      Z.lor (Z.shiftl b3 24)
        (Z.lor (Z.shiftl b2 16) (Z.lor (Z.shiftl b1 8) b0))
      :: be_words n' rest
  | _, _ => []
  end.

Fixpoint blocks (n : nat) (ws : list Z) : list (list Z) :=
  match n with
  | O => []
  | S n' => take 16 ws :: blocks n' (drop 16 ws)
  end.

Definition nth_word (i : nat) (ws : list Z) : Z := List.nth i ws 0.

(** One step of the message schedule on a sliding window of the last
    sixteen words: [W t = sigma1 (W (t-2)) + W (t-7) + sigma0 (W (t-15))
    + W (t-16)]. *)
Definition next_window (win : list Z) : list Z :=
  let w :=
    add32 (add32 (sigma1 (nth_word 14 win)) (nth_word 9 win))
          (add32 (sigma0 (nth_word 1 win)) (nth_word 0 win)) in
  drop 1 win ++ [w].

(** One round on the working variables [a..h] with constant [k] and
    schedule word [w]. *)
Definition round (st : list Z) (k w : Z) : list Z :=
  match st with
  | [a; b; c; d; e; f; g; h] =>
      let t1 :=
        add32 (add32 (add32 h (Sigma1 e)) (add32 (Ch e f g) k)) w in
      let t2 := add32 (Sigma0 a) (Maj a b c) in
      [add32 t1 t2; a; b; c; add32 d t1; e; f; g]
  | _ => st
  end.

Fixpoint rounds (ks : list Z) (win st : list Z) : list Z :=
  match ks with
  | [] => st
  | k :: ks' => rounds ks' (next_window win) (round st k (nth_word 0 win))
  end.

Definition compress (h : list Z) (block : list Z) : list Z :=
  List.map (fun p => add32 (fst p) (snd p))
           (List.combine h (rounds K block h)).

Definition digest_words (msg : list Z) : list Z :=
  let padded := pad msg in
  let ws := be_words (List.length padded / 4) padded in
  List.fold_left compress (blocks (List.length ws / 16) ws) H0.

Definition hex_digit (n : Z) : ascii :=
  ascii_of_N (Z.to_N (if n <? 10 then 48 + n else 87 + n)).

Fixpoint hex_of_bytes (bs : list Z) : string :=
  match bs with
  | [] => EmptyString
  | b :: bs' =>
      String (hex_digit (Z.shiftr b 4))
        (String (hex_digit (Z.land b 15)) (hex_of_bytes bs'))
  end.

(** [digest('hex')]: the 64 lower-case hexadecimal characters. *)
Definition hex_digest (s : string) : string :=
  hex_of_bytes (List.concat (List.map (be_bytes 4)
                               (digest_words (bytes_of_string s)))).

End SHA256.

(** ** Values and records

    [req.body.longUrl] after [express.json()]: any JSON value, or
    [undefined] when the key is missing.  Objects and arrays are not told
    apart, both are truthy and neither is accepted by [hash.update]. *)
Inductive JsVal : Type :=
  | JUndefined
  | JNull
  | JBool (b : bool)
  | JNum (n : Z)
  | JStr (s : string)
  | JObj.

(** JavaScript truthiness, as used by [if (!longUrl)]. *)
Definition truthy (v : JsVal) : bool :=
  match v with
  | JUndefined | JNull => false
  | JBool b => b
  | JNum n => negb (n =? 0)
  | JStr EmptyString => false
  | JStr (String _ _) => true
  | JObj => true
  end.

Definition TABLE_NAME : string := "URLShortenerMappings".
Definition TTL_DAYS : Z := 365.
Definition SHORT_URL_LENGTH : nat := 16.

(** An item of the table [URLShortenerMappings], without its primary key
    [short_url], which is the key of the map holding it.  [dynamodb.put]
    writes every attribute; an item born from [dynamodb.update] on a key
    that is gone carries the counter only, hence the options. *)
Record Item : Type := mkItem {
  long_url : option string;
  ttl : option Z;
  created_at : option string;
  access_count : Z
}.

Global Instance Item_eq_dec : EqDecision Item.
Proof. solve_decision. Defined.

(** Errors that reach a [catch]. *)
Inductive Exn : Type :=
  | TypeError (code : string)
  | ConditionalCheckFailedException
  | ServiceError (msg : string).

(** What the handler hands to Express. *)
Inductive Body : Type :=
  | UrlBody (shortUrl : string) (longUrl : string) (ttl : option Z)
  | ErrorBody (error : string)
  | StatusBody (status : string).

Inductive Response : Type :=
  | Json (status : Z) (body : Body)
  | Redirect (status : Z) (url : option string).

(** The world a handler runs in: the DynamoDB table keyed by [short_url],
    the DAX item cache in front of it, the lines written with
    [console.error], and the keys of the [dynamodb.update] requests that
    were issued and whose promise is not settled yet. *)
Record World : Type := mkWorld {
  table : gmap string Item;
  dax : gmap string Item;
  console : list (string * Exn);
  inflight : list string
}.

Definition with_table (t : gmap string Item) (w : World) : World :=
  mkWorld t (dax w) (console w) (inflight w).

Definition with_dax (c : gmap string Item) (w : World) : World :=
  mkWorld (table w) c (console w) (inflight w).

Definition with_console (l : list (string * Exn)) (w : World) : World :=
  mkWorld (table w) (dax w) l (inflight w).

Definition with_inflight (q : list string) (w : World) : World :=
  mkWorld (table w) (dax w) (console w) q.

Definition empty_world : World := mkWorld ∅ ∅ [] [].

(** ** A state and exception monad for the handlers *)
Definition M (A : Type) : Type := World -> World * (Exn + A).

Global Instance M_ret : MRet M := fun A (x : A) (w : World) => (w, inr x).

Global Instance M_bind : MBind M :=
  fun A B (f : A -> M B) (c : M A) (w : World) =>
    match c w with
    | (w', inr x) => f x w'
    | (w', inl e) => (w', inl e)
    end.

Definition throw {A : Type} (e : Exn) : M A := fun w => (w, inl e).

(** [try { body } catch (error) { handler }]. *)
Definition try_catch {A : Type} (body : M A) (handler : Exn -> M A) : M A :=
  fun w =>
    match body w with
    | (w', inr x) => (w', inr x)
    | (w', inl e) => handler e w'
    end.

Definition console_error (msg : string) (e : Exn) : M unit :=
  fun w => (with_console (console w ++ [(msg, e)]) w, inr tt).

(** What the other requests and the store do while this handler is
    suspended on an [await]. *)
Definition yield (env : World -> World) : M unit :=
  fun w => (env w, inr tt).

(** ** The store and the cache

    DynamoDB and DAX are services outside the repository, reached through
    the AWS SDK's [DocumentClient].  Each call the handlers make is given
    the behaviour the service documents for it: point lookup by primary
    key, query on the index [LongURLIndex], conditional put, atomic add,
    passive expiry on [ttl], and a read-through item cache.  Transport
    failures of the awaited calls are left out; the detached update may
    fail, see [settle_update]. *)

(** [dynamodb.query] on [LongURLIndex] with [long_url = :url]: the items
    whose [long_url] is [url], each with its primary key. *)
Definition index_match (url : string) (kv : string * Item) : Prop :=
  long_url kv.2 = Some url.

Global Instance index_match_dec url kv : Decision (index_match url kv).
Proof. unfold index_match. apply _. Defined.

Definition index_items (url : string) (t : gmap string Item)
  : list (string * Item) :=
  filter (index_match url) (map_to_list t).

Definition dynamodb_query (url : string) : M (list (string * Item)) :=
  fun w => (w, inr (index_items url (table w))).

(** [dynamodb.put] with [ConditionExpression:
    'attribute_not_exists(short_url)']: rejected when an item already has
    this primary key. *)
Definition dynamodb_put (k : string) (it : Item) : M unit :=
  fun w =>
    match table w !! k with
    | Some _ => (w, inl ConditionalCheckFailedException)
    | None => (with_table (<[k := it]> (table w)) w, inr tt)
    end.

(** [daxClient.get]: the cached item when there is one, otherwise the
    item of the table, which the cache then keeps. *)
Definition daxClient_get (k : string) : M (option Item) :=
  fun w =>
    match dax w !! k with
    | Some it => (w, inr (Some it))
    | None =>
        match table w !! k with
        | Some it => (with_dax (<[k := it]> (dax w)) w, inr (Some it))
        | None => (w, inr None)
        end
    end.

(** [dynamodb.update(..)] called and not awaited: the request leaves,
    nothing is known of its outcome. *)
Definition dynamodb_update_detached (k : string) : M unit :=
  fun w => (with_inflight (inflight w ++ [k]) w, inr tt).

(** [UpdateExpression: 'ADD access_count :inc'] with [:inc = 1], applied
    by the store: adds to the counter, and creates the item when the key
    has none. *)
Definition add_access_count (inc : Z) (o : option Item) : option Item :=
  match o with
  | Some it =>
      Some (mkItem (long_url it) (ttl it) (created_at it)
                   (access_count it + inc))
  | None => Some (mkItem None None None inc)
  end.

(** The [i]-th request in flight settles, in whatever order the network
    decides: applied by the store, or rejected with [err], which only the
    [.catch] attached to the promise sees. *)
Definition settle_update (i : nat) (outcome : option Exn) (w : World) : World :=
  match inflight w !! i with
  | None => w
  | Some k =>
      match outcome with
      | None =>
          with_inflight (delete i (inflight w))
            (with_table (partial_alter (add_access_count 1) k (table w)) w)
      | Some err =>
          with_inflight (delete i (inflight w))
            (with_console
               (console w ++ [("Error updating access count:", err)]) w)
      end
  end.

(** Passive expiry: at [now_s] (epoch seconds) the store deletes the
    items of [ks] whose [ttl] has been reached; which expired items go
    first is the store's choice. *)
Definition ttl_reached (now_s : Z) (t : option Z) : bool :=
  match t with
  | Some t => t <=? now_s
  | None => false
  end.

Definition expired (now_s : Z) (it : Item) : bool :=
  ttl_reached now_s (ttl it).

Definition survives (now_s : Z) (ks : gset string) (kv : string * Item) : Prop :=
  ¬ (kv.1 ∈ ks ∧ expired now_s kv.2 = true).

Global Instance survives_dec now_s ks kv : Decision (survives now_s ks kv).
Proof. unfold survives. apply _. Defined.

Definition ttl_sweep (now_s : Z) (ks : gset string) (w : World) : World :=
  with_table (filter (survives now_s ks) (table w)) w.

(** ** The handlers *)

(** [app.get('/health', ..)]. *)
Definition health : Response := Json 200 (StatusBody "healthy").

(** The Code Generator: [hash.substring(0, SHORT_URL_LENGTH)] of the hex
    digest. *)
Definition generate (longUrl : string) : string :=
  substring 0 SHORT_URL_LENGTH (SHA256.hex_digest longUrl).

(** [Math.floor(Date.now() / 1000) + (TTL_DAYS * 24 * 60 * 60)], with
    [now_ms] the value of [Date.now()]. *)
Definition compute_ttl (now_ms : Z) : Z :=
  now_ms / 1000 + TTL_DAYS * 24 * 60 * 60.

(** [app.post('/url', ..)].  [now_ms] is [Date.now()], [iso] is
    [new Date().toISOString()], [env] is what happens in the world
    between the answer to the query and the put.  [hash.update] throws a
    [TypeError] on a truthy value that is not a string. *)
Definition post_url (env : World -> World) (now_ms : Z) (iso : string)
    (longUrl : JsVal) : M Response :=
  try_catch
    (if negb (truthy longUrl) then
       mret (Json 400 (ErrorBody "longUrl is required"))
     else
       match longUrl with
       | JStr url =>
           let shortUrl := generate url in
           let ttl_ := compute_ttl now_ms in
           existingUrl ← dynamodb_query url;
           match existingUrl with
           | (short_url, item) :: _ =>
               mret (Json 200 (UrlBody short_url url (ttl item)))
           | [] =>
               yield env;;
               dynamodb_put shortUrl
                 (mkItem (Some url) (Some ttl_) (Some iso) 0);;
               mret (Json 201 (UrlBody shortUrl url (Some ttl_)))
           end
       | _ => throw (TypeError "ERR_INVALID_ARG_TYPE")
       end)
    (fun error =>
       console_error "Error creating short URL:" error;;
       mret (Json 500 (ErrorBody "Internal server error"))).

(** [create(longUrl)] with no other request in between. *)
Definition create (now_ms : Z) (iso : string) (longUrl : string) : M Response :=
  post_url id now_ms iso (JStr longUrl).

(** [app.get('/url/:shortUrl', ..)]. *)
Definition get_url (shortUrl : string) : M Response :=
  try_catch
    (result ← daxClient_get shortUrl;
     match result with
     | None => mret (Json 404 (ErrorBody "URL not found"))
     | Some item =>
         dynamodb_update_detached shortUrl;;
         mret (Redirect 301 (long_url item))
     end)
    (fun error =>
       console_error "Error retrieving URL:" error;;
       mret (Json 500 (ErrorBody "Internal server error"))).

Definition resolve (shortCode : string) : M Response := get_url shortCode.

(** [resolve] followed by the settlement of the update it issued, with
    [outcome] decided by the store after the response was handed over. *)
Definition resolve_then_settle (shortCode : string) (outcome : option Exn)
    (w : World) : World * (Exn + Response) :=
  let '(w', r) := resolve shortCode w in
  (settle_update (List.length (inflight w)) outcome w', r).

(** ** Well-formed worlds *)

(** DynamoDB refuses an empty string as the value of an index key, and
    the handlers never write one: no stored item has [long_url = ""]. *)
Definition index_keys_nonempty (w : World) : Prop :=
  map_Forall (fun _ it => long_url it ≠ Some "") (table w).

(** The cache holds nothing the table does not hold, and agrees with the
    table on the target of every cached code.  The counter of a cached
    item may lag behind, updates bypass the cache. *)
Definition cache_coherent (w : World) : Prop :=
  map_Forall
    (fun k ci => long_url <$> table w !! k = Some (long_url ci))
    (dax w).

Arguments generate : simpl never.

(** Lower-case hexadecimal characters, the alphabet of [digest('hex')]. *)
Definition is_hex_char (c : ascii) : bool :=
  let n := N_of_ascii c in
  ((48 <=? n) && (n <=? 57) || (97 <=? n) && (n <=? 102))%N.

Fixpoint all_hex (s : string) : bool :=
  match s with
  | EmptyString => true
  | String c s' => is_hex_char c && all_hex s'
  end.

(** ** Sample requests and worlds *)

Definition example_url : string := "https://example.com/very/long/url".
Definition example_code : string := "8ec596c44bd62b6b".

(** The record a first [create] of [example_url] stores when [Date.now()]
    is 1700000000123. *)
Definition example_item : Item :=
  mkItem (Some example_url) (Some 1731536000)
         (Some "2023-11-14T22:13:20.123Z") 0.

Definition example_world : World :=
  with_table {[ example_code := example_item ]} empty_world.

(** A concurrent [create] of the same URL, served between the query and
    the put of the request under study. *)
Definition racing_create (w : World) : World :=
  (create 1700000000100 "2023-11-14T22:13:20.100Z" example_url w).1.

(** ** The legacy creation endpoint

    [decodeURIComponent], as ECMA-262 defines it (abstract operation
    Decode with an empty set of preserved characters), on strings carried
    as their UTF-8 bytes: a character other than [%] is kept; [%] must be
    followed by two hexadecimal digits; an octet below 128 is the
    character itself; a lead octet of a 2, 3 or 4 byte sequence must be
    followed by that many escaped continuation octets, the whole a
    well-formed UTF-8 encoding of one code point; anything else throws a
    [URIError], here [None]. *)
Definition hex_value (c : ascii) : option Z :=
  let n := Z.of_N (N_of_ascii c) in
  if (48 <=? n) && (n <=? 57) then Some (n - 48)
  else if (65 <=? n) && (n <=? 70) then Some (n - 55)
  else if (97 <=? n) && (n <=? 102) then Some (n - 87)
  else None.

Definition hex_octet (h l : ascii) : option Z :=
  match hex_value h, hex_value l with
  | Some a, Some b => Some (16 * a + b)
  | _, _ => None
  end.

Definition is_percent (c : ascii) : bool := Ascii.eqb c "%"%char.

Definition octet_char (b : Z) : ascii := ascii_of_N (Z.to_N b).

Definition continuation (b : Z) : bool := (128 <=? b) && (b <=? 191).

(** Well-formed UTF-8 sequences of two to four octets: no overlong
    form, no surrogate, nothing above U+10FFFF. *)
Definition utf8_valid (octets : list Z) : bool :=
  match octets with
  | [b1; b2] => (194 <=? b1) && (b1 <=? 223) && continuation b2
  | [b1; b2; b3] =>
      continuation b3
      && ((b1 =? 224) && (160 <=? b2) && (b2 <=? 191)
          || (225 <=? b1) && (b1 <=? 236) && continuation b2
          || (b1 =? 237) && (128 <=? b2) && (b2 <=? 159)
          || (238 <=? b1) && (b1 <=? 239) && continuation b2)
  | [b1; b2; b3; b4] =>
      continuation b3 && continuation b4
      && ((b1 =? 240) && (144 <=? b2) && (b2 <=? 191)
          || (241 <=? b1) && (b1 <=? 243) && continuation b2
          || (b1 =? 244) && (128 <=? b2) && (b2 <=? 143))
  | _ => false
  end.

(** The number of leading 1 bits of an octet, as far as Decode tells
    them apart: 0, 2, 3, 4, or a count that is refused (1, 5 and more). *)
Definition leading_ones (b : Z) : option nat :=
  if b <? 128 then Some 0%nat
  else if b <? 192 then None
  else if b <? 224 then Some 2%nat
  else if b <? 240 then Some 3%nat
  else if b <? 248 then Some 4%nat
  else None.

Definition prepend_octets (octets : list Z) (s : string) : string :=
  List.fold_right (fun b acc => String (octet_char b) acc) s octets.

Definition emit (octets : list Z) (rest : option string) : option string :=
  if utf8_valid octets then prepend_octets octets <$> rest else None.

Fixpoint decodeURIComponent (s : string) : option string :=
  match s with
  | EmptyString => Some EmptyString
  | String c rest =>
      if negb (is_percent c) then String c <$> decodeURIComponent rest
      else
        match rest with
        | String h1 (String l1 rest1) =>
            match hex_octet h1 l1 with
            | None => None
            | Some b1 =>
                match leading_ones b1 with
                | None => None
                | Some O =>
                    String (octet_char b1) <$> decodeURIComponent rest1
                | Some n =>
                    match rest1 with
                    | String p2 (String h2 (String l2 rest2)) =>
                        match (if is_percent p2 then hex_octet h2 l2
                               else None) with
                        | None => None
                        | Some b2 =>
                            if (n =? 2)%nat then
                              emit [b1; b2] (decodeURIComponent rest2)
                            else
                              match rest2 with
                              | String p3 (String h3 (String l3 rest3)) =>
                                  match (if is_percent p3
                                         then hex_octet h3 l3 else None) with
                                  | None => None
                                  | Some b3 =>
                                      if (n =? 3)%nat then
                                        emit [b1; b2; b3]
                                          (decodeURIComponent rest3)
                                      else
                                        match rest3 with
                                        | String p4
                                            (String h4 (String l4 rest4)) =>
                                            match (if is_percent p4
                                                   then hex_octet h4 l4
                                                   else None) with
                                            | None => None
                                            | Some b4 =>
                                                emit [b1; b2; b3; b4]
                                                  (decodeURIComponent rest4)
                                            end
                                        | _ => None
                                        end
                                  end
                              | _ => None
                              end
                        end
                    | _ => None
                    end
                end
            end
        | _ => None
        end
  end.

(** The [URIError] thrown by [decodeURIComponent], as the error object
    the [catch] receives. *)
Definition URIError : Exn := ServiceError "URIError: URI malformed".

(** [app.post('/url/:longUrl', ..)], the legacy endpoint: [param] is
    [req.params.longUrl].  Same steps as [post_url] after the decoding,
    without the guard on an empty value. *)
Definition post_url_legacy (env : World -> World) (now_ms : Z) (iso : string)
    (param : string) : M Response :=
  try_catch
    (match decodeURIComponent param with
     | None => throw URIError
     | Some longUrl =>
         let shortUrl := generate longUrl in
         let ttl_ := compute_ttl now_ms in
         existingUrl ← dynamodb_query longUrl;
         match existingUrl with
         | (short_url, item) :: _ =>
             mret (Json 200 (UrlBody short_url longUrl (ttl item)))
         | [] =>
             yield env;;
             dynamodb_put shortUrl
               (mkItem (Some longUrl) (Some ttl_) (Some iso) 0);;
             mret (Json 201 (UrlBody shortUrl longUrl (Some ttl_)))
         end
     end)
    (fun error =>
       console_error "Error creating short URL:" error;;
       mret (Json 500 (ErrorBody "Internal server error"))).

(** [n] resolutions of the same short code in a row, the update of each
    applied by the store before the next arrives. *)
Fixpoint resolve_repeatedly (n : nat) (shortCode : string) (w : World) : World :=
  match n with
  | O => w
  | S n' =>
      resolve_repeatedly n' shortCode (resolve_then_settle shortCode None w).1
  end.

(** A string without the character [%]. *)
Fixpoint percent_free (s : string) : bool :=
  match s with
  | EmptyString => true
  | String c rest => negb (is_percent c) && percent_free rest
  end.

(** ** Runs of the service *)

(** Every record sits under the short code generated from its long
    URL. *)
Definition keys_generated (w : World) : Prop :=
  map_Forall
    (fun k it => ∀ u, long_url it = Some u → k = generate u)
    (table w).

Definition store_invariant (w : World) : Prop :=
  index_keys_nonempty w ∧ keys_generated w.

(** One step of the world: a request served from start to end, the
    settlement of an update in flight, or, when [gc] is set, a sweep of
    expired items by the store.  Express never routes an empty
    [:longUrl] segment to the legacy endpoint. *)
Inductive step (gc : bool) : World -> World -> Prop :=
  | step_post_url now_ms iso v w :
      step gc w (post_url id now_ms iso v w).1
  | step_post_url_legacy now_ms iso param w :
      param ≠ "" →
      step gc w (post_url_legacy id now_ms iso param w).1
  | step_get_url k w :
      step gc w (get_url k w).1
  | step_settle i outcome w :
      step gc w (settle_update i outcome w)
  | step_sweep now_s ks w :
      gc = true →
      step gc w (ttl_sweep now_s ks w).

Definition reachable (gc : bool) (w : World) : Prop :=
  rtc (step gc) empty_world w.

(** The item after one more resolution was counted. *)
Definition counted (n : Z) (it : Item) : Item :=
  mkItem (long_url it) (ttl it) (created_at it) (access_count it + n).

(** ** The form of the React application ([ui/src/App.js])

    [String.prototype.trim] on strings carried as UTF-8 bytes: the
    white space and line terminators of ECMA-262, that is U+0009 to
    U+000D, U+0020, U+00A0, U+1680, U+2000 to U+200A, U+2028, U+2029,
    U+202F, U+205F, U+3000 and U+FEFF, are removed from both ends. *)
Definition byte_of (c : ascii) : Z := Z.of_N (N_of_ascii c).

Definition white1 (a : ascii) : bool :=
  let x := byte_of a in ((9 <=? x) && (x <=? 13)) || (x =? 32).

Definition white2 (a b : ascii) : bool :=
  (byte_of a =? 194) && (byte_of b =? 160).

Definition white3 (a b c : ascii) : bool :=
  let x := byte_of a in
  let y := byte_of b in
  let z := byte_of c in
  (x =? 225) && (y =? 154) && (z =? 128)
  || (x =? 226) && (y =? 128)
     && (((128 <=? z) && (z <=? 138)) || (z =? 168) || (z =? 169)
         || (z =? 175))
  || (x =? 226) && (y =? 129) && (z =? 159)
  || (x =? 227) && (y =? 128) && (z =? 128)
  || (x =? 239) && (y =? 187) && (z =? 191).

Fixpoint trim_start (s : string) : string :=
  match s with
  | EmptyString => EmptyString
  | String a rest =>
      if white1 a then trim_start rest
      else
        match rest with
        | String b rest2 =>
            if white2 a b then trim_start rest2
            else
              match rest2 with
              | String c rest3 =>
                  if white3 a b c then trim_start rest3 else s
              | EmptyString => s
              end
        | EmptyString => s
        end
  end.

(** The same from the end, on the characters in reverse order. *)
Fixpoint trim_reversed (l : list ascii) : list ascii :=
  match l with
  | [] => []
  | a :: rest =>
      if white1 a then trim_reversed rest
      else
        match rest with
        | b :: rest2 =>
            if white2 b a then trim_reversed rest2
            else
              match rest2 with
              | c :: rest3 =>
                  if white3 c b a then trim_reversed rest3 else l
              | [] => l
              end
        | [] => l
        end
  end.

Definition trim (s : string) : string :=
  string_of_list_ascii
    (List.rev
       (trim_reversed (List.rev (list_ascii_of_string (trim_start s))))).

(** The four [useState] cells of [App]. *)
Record AppState : Type := mkApp {
  ui_longUrl : string;
  ui_shortUrl : string;
  ui_error : string;
  ui_loading : bool
}.

(** What [await fetch(..)] followed by [await response.json()] gives:
    a rejection, by either call, carrying the error's [message], or the
    status and the body parsed from JSON. *)
Inductive Fetched : Type :=
  | FetchRejected (message : string)
  | FetchJson (status : Z) (data : Body).

(** [response.ok]. *)
Definition response_ok (status : Z) : bool :=
  (200 <=? status) && (status <=? 299).

(** [data.error] and [data.shortUrl], [None] for [undefined]. *)
Definition data_error (data : Body) : option string :=
  match data with
  | ErrorBody e => Some e
  | _ => None
  end.

Definition data_shortUrl (data : Body) : option string :=
  match data with
  | UrlBody k _ _ => Some k
  | _ => None
  end.

(** [x || fallback] on a string that may be [undefined]. *)
Definition or_else (x : option string) (fallback : string) : string :=
  match x with
  | Some (String a r) => String a r
  | _ => fallback
  end.

(** A run of [handleSubmit]: it returns before any request, or it sends
    [POST /url] with the body [{longUrl}], shows [pending] meanwhile, and
    resumes with what was fetched. *)
Inductive Submit : Type :=
  | Settled (final : AppState)
  | Requested (pending : AppState) (longUrl : string)
      (resume : Fetched -> AppState).

Section Form.

(** [new URL(s)] does not throw; [window.location.protocol] and
    [window.location.host]. *)
Variable url_parses : string -> bool.
Variables protocol host : string.

(** The [try] around the request, its [catch] and its [finally], from
    the state shown while loading. *)
Definition after_fetch (pending : AppState) (fetched : Fetched) : AppState :=
  let failed (message : string) :=
    mkApp (ui_longUrl pending) (ui_shortUrl pending)
          (or_else (Some message) "An error occurred. Please try again.")
          false in
  match fetched with
  | FetchRejected message => failed message
  | FetchJson status data =>
      if negb (response_ok status) then
        failed (or_else (data_error data) "Failed to create short URL")
      else
        let fullShortUrl :=
          (protocol ++ "//" ++ host ++ "/url/"
             ++ default "undefined" (data_shortUrl data))%string in
        mkApp (ui_longUrl pending) fullShortUrl (ui_error pending) false
  end.

(** The link the form shows for a short code. *)
Definition link (k : string) : string :=
  (protocol ++ "//" ++ host ++ "/url/" ++ k)%string.

Definition handleSubmit (st : AppState) : Submit :=
  let longUrl := ui_longUrl st in
  match trim longUrl with
  | EmptyString =>
      Settled (mkApp longUrl (ui_shortUrl st) "Please enter a URL"
                     (ui_loading st))
  | String _ _ =>
      if negb (url_parses longUrl) then
        Settled (mkApp longUrl (ui_shortUrl st)
                   "Please enter a valid URL (include http:// or https://)"
                   (ui_loading st))
      else
        let pending := mkApp longUrl "" "" true in
        Requested pending longUrl (after_fetch pending)
  end.

(** The form in front of the server: the request, when one is sent, is
    served by [POST /url] on the world [w], and its answer is what the
    form fetches. *)
Definition fetched_of (r : Exn + Response) : Fetched :=
  match r with
  | inr (Json status data) => FetchJson status data
  | _ => FetchRejected "Failed to fetch"
  end.

Definition submit_to_server (now_ms : Z) (iso : string) (st : AppState)
    (w : World) : AppState * World :=
  match handleSubmit st with
  | Settled final => (final, w)
  | Requested _ longUrl resume =>
      let '(w', r) := post_url id now_ms iso (JStr longUrl) w in
      (resume (fetched_of r), w')
  end.

End Form.

(** Strings made of the ASCII white space only. *)
Fixpoint all_white1 (s : string) : bool :=
  match s with
  | EmptyString => true
  | String a rest => white1 a && all_white1 rest
  end.

(** The constants are the published ones. *)
Example sha256_constants :
  List.nth 0 SHA256.K 0 = 0x428a2f98
  ∧ List.nth 63 SHA256.K 0 = 0xc67178f2
  ∧ List.nth 0 SHA256.H0 0 = 0x6a09e667
  ∧ List.nth 7 SHA256.H0 0 = 0x5be0cd19.
Proof. repeat split. Qed.

(** The implementation agrees with the published test vectors. *)
Example sha256_empty :
  SHA256.hex_digest "" =
  "e3b0c44298fc1c149afbf4c8996fb92427ae41e4649b934ca495991b7852b855".
Proof. vm_compute. reflexivity. Qed.

Example sha256_abc :
  SHA256.hex_digest "abc" =
  "ba7816bf8f01cfea414140de5dae2223b00361a396177a9cb410ff61f20015ad".
Proof. vm_compute. reflexivity. Qed.

Example sha256_two_blocks :
  SHA256.hex_digest
    "abcdbcdecdefdefgefghfghighijhijkijkljklmklmnlmnomnopnopq" =
  "248d6a61d20638b8e5c026930c3e6039a33ce45964ff2167f6ecedd419db06c1".
Proof. vm_compute. reflexivity. Qed.

(** ** Shape of the digest and of the short code *)
Module SHA256Facts.
Import SHA256.

Lemma round_length st k w : List.length (round st k w) = List.length st.
Proof. do 9 (destruct st as [| ? st]; try reflexivity). Qed.

Lemma rounds_length ks win st :
  List.length (rounds ks win st) = List.length st.
Proof.
  revert win st. induction ks as [| k ks IH]; intros win st; simpl.
  - reflexivity.
  - by rewrite IH, round_length.
Qed.

Lemma compress_length h block :
  List.length (compress h block) = List.length h.
Proof.
  unfold compress.
  rewrite List.length_map, List.length_combine, rounds_length. lia.
Qed.

Lemma digest_words_length msg : List.length (digest_words msg) = 8%nat.
Proof.
  unfold digest_words.
  generalize (blocks
                (List.length (be_words (List.length (pad msg) / 4) (pad msg))
                 / 16)
                (be_words (List.length (pad msg) / 4) (pad msg))).
  intros bs. change 8%nat with (List.length H0). generalize H0.
  induction bs as [| b bs IH]; intros h; simpl; [done |].
  by rewrite IH, compress_length.
Qed.

Lemma be_bytes_length n x : List.length (be_bytes n x) = n.
Proof. induction n as [| n IH]; simpl; congruence. Qed.

Lemma be_bytes_range n x : Forall (fun b => 0 <= b < 256) (be_bytes n x).
Proof.
  induction n as [| n IH]; simpl; constructor; [| done].
  change 255 with (Z.ones 8). rewrite Z.land_ones by lia.
  apply Z.mod_pos_bound. lia.
Qed.

Lemma digest_bytes_length ws :
  List.length (List.concat (List.map (be_bytes 4) ws))
  = (4 * List.length ws)%nat.
Proof.
  induction ws as [| x ws IH]; [done |].
  change (List.concat (List.map (be_bytes 4) (x :: ws)))
    with (be_bytes 4 x ++ List.concat (List.map (be_bytes 4) ws))%list.
  rewrite List.length_app, be_bytes_length, IH. simpl. lia.
Qed.

Lemma digest_bytes_range ws :
  Forall (fun b => 0 <= b < 256) (List.concat (List.map (be_bytes 4) ws)).
Proof.
  induction ws as [| x ws IH]; [constructor |].
  change (List.concat (List.map (be_bytes 4) (x :: ws)))
    with (be_bytes 4 x ++ List.concat (List.map (be_bytes 4) ws))%list.
  apply Forall_app. split; [apply be_bytes_range | done].
Qed.

Lemma hex_digit_is_hex n : 0 <= n < 16 → is_hex_char (hex_digit n) = true.
Proof.
  intros Hn.
  assert (Hcases : n = 0 ∨ n = 1 ∨ n = 2 ∨ n = 3 ∨ n = 4 ∨ n = 5 ∨ n = 6
                   ∨ n = 7 ∨ n = 8 ∨ n = 9 ∨ n = 10 ∨ n = 11 ∨ n = 12
                   ∨ n = 13 ∨ n = 14 ∨ n = 15) by lia.
  repeat destruct Hcases as [-> | Hcases]; try reflexivity.
  subst n. reflexivity.
Qed.

Lemma hex_of_bytes_length bs :
  String.length (hex_of_bytes bs) = (2 * List.length bs)%nat.
Proof. induction bs as [| b bs IH]; simpl; [done |]. rewrite IH. lia. Qed.

Lemma hex_of_bytes_all_hex bs :
  Forall (fun b => 0 <= b < 256) bs → all_hex (hex_of_bytes bs) = true.
Proof.
  induction 1 as [| b bs Hb _ IH]; simpl; [done |].
  rewrite IH, !hex_digit_is_hex; [done | |].
  - change 15 with (Z.ones 4). rewrite Z.land_ones by lia.
    apply Z.mod_pos_bound. lia.
  - rewrite Z.shiftr_div_pow2 by lia. change (2 ^ 4) with 16.
    split; [apply Z.div_pos; lia | apply Z.div_lt_upper_bound; lia].
Qed.

Lemma hex_digest_length s : String.length (hex_digest s) = 64%nat.
Proof.
  unfold hex_digest.
  by rewrite hex_of_bytes_length, digest_bytes_length, digest_words_length.
Qed.

Lemma hex_digest_all_hex s : all_hex (hex_digest s) = true.
Proof. apply hex_of_bytes_all_hex, digest_bytes_range. Qed.

End SHA256Facts.

Lemma substring_prefix_length n s :
  (n <= String.length s)%nat → String.length (substring 0 n s) = n.
Proof.
  revert s. induction n as [| n IH]; intros s Hn.
  - by destruct s.
  - destruct s as [| c s]; simpl in *; [lia |]. rewrite IH; [done | lia].
Qed.

Lemma substring_prefix_all_hex n s :
  all_hex s = true → all_hex (substring 0 n s) = true.
Proof.
  revert s. induction n as [| n IH]; intros s Hs.
  - by destruct s.
  - destruct s as [| c s]; simpl in *; [done |].
    apply andb_true_iff in Hs as [Hc Hs]. by rewrite Hc, IH.
Qed.

(** The short code is sixteen lower-case hexadecimal characters. *)
Lemma generate_length s : String.length (generate s) = 16%nat.
Proof.
  unfold generate, SHORT_URL_LENGTH. apply substring_prefix_length.
  rewrite SHA256Facts.hex_digest_length. lia.
Qed.

Lemma generate_all_hex s : all_hex (generate s) = true.
Proof.
  unfold generate. apply substring_prefix_all_hex,
    SHA256Facts.hex_digest_all_hex.
Qed.

(** ** The index and the primitives *)

Lemma index_items_elem (url : string) (t : gmap string Item) k it :
  (k, it) ∈ index_items url t ↔ t !! k = Some it ∧ long_url it = Some url.
Proof.
  unfold index_items. rewrite list_elem_of_filter, elem_of_map_to_list.
  unfold index_match. simpl. tauto.
Qed.

Lemma index_items_head (url : string) (t : gmap string Item) k it rest :
  index_items url t = (k, it) :: rest →
  t !! k = Some it ∧ long_url it = Some url.
Proof.
  intros Hq. apply index_items_elem. rewrite Hq. apply list_elem_of_here.
Qed.

Lemma index_items_nil (url : string) (t : gmap string Item) k it :
  index_items url t = [] → t !! k = Some it → long_url it ≠ Some url.
Proof.
  intros Hq Hk Hu.
  assert (Hin : (k, it) ∈ index_items url t) by (by apply index_items_elem).
  rewrite Hq in Hin. by apply not_elem_of_nil in Hin.
Qed.

(** After a put on a free key the index holds the new item next to the
    ones it held. *)
Lemma index_items_insert_fresh (url : string) (t : gmap string Item) k it :
  t !! k = None → long_url it = Some url →
  index_items url (<[k := it]> t) ≡ₚ (k, it) :: index_items url t.
Proof.
  intros Hk Hu. unfold index_items.
  rewrite (map_to_list_insert t k it Hk), filter_cons.
  destruct (decide (index_match url (k, it))) as [_ | Hn]; [done |].
  by destruct Hn.
Qed.

Lemma index_items_fresh_singleton (url : string) (t : gmap string Item) k it :
  index_items url t = [] → t !! k = None → long_url it = Some url →
  index_items url (<[k := it]> t) = [(k, it)].
Proof.
  intros Hq Hk Hu. apply Permutation_singleton_r.
  by rewrite (index_items_insert_fresh url t k it Hk Hu), Hq.
Qed.

Lemma truthy_JStr (s : string) : truthy (JStr s) = true ↔ s ≠ "".
Proof. destruct s; simpl; split; congruence. Qed.

Lemma compute_ttl_seconds (now_ms : Z) :
  compute_ttl now_ms = now_ms / 1000 + 31536000.
Proof. unfold compute_ttl, TTL_DAYS. lia. Qed.

(** ** The three ways out of [POST /url] for a non-empty string *)
Section PostUrl.

Variable env : World -> World.
Variables (now_ms : Z) (iso : string).
Variables (url : string) (w : World).
Hypothesis url_nonempty : url ≠ "".

Ltac enter_post_url :=
  unfold post_url, try_catch;
  destruct url as [| c0 url0]; [congruence |];
  cbn [truthy negb];
  unfold mbind, M_bind, mret, M_ret, dynamodb_query, yield.

Lemma post_url_existing k it rest :
  index_items url (table w) = (k, it) :: rest →
  post_url env now_ms iso (JStr url) w
  = (w, inr (Json 200 (UrlBody k url (ttl it)))).
Proof. intros Hq. enter_post_url. by rewrite Hq. Qed.

Lemma post_url_fresh :
  index_items url (table w) = [] →
  table (env w) !! generate url = None →
  post_url env now_ms iso (JStr url) w
  = (with_table
       (<[generate url :=
            mkItem (Some url) (Some (compute_ttl now_ms)) (Some iso) 0]>
          (table (env w)))
       (env w),
     inr (Json 201 (UrlBody (generate url) url (Some (compute_ttl now_ms))))).
Proof.
  intros Hq Hk. enter_post_url. rewrite Hq.
  unfold dynamodb_put. by rewrite Hk.
Qed.

Lemma post_url_conflict r :
  index_items url (table w) = [] →
  table (env w) !! generate url = Some r →
  post_url env now_ms iso (JStr url) w
  = (with_console
       (console (env w)
          ++ [("Error creating short URL:", ConditionalCheckFailedException)])
       (env w),
     inr (Json 500 (ErrorBody "Internal server error"))).
Proof.
  intros Hq Hk. enter_post_url. rewrite Hq.
  unfold dynamodb_put, console_error. by rewrite Hk.
Qed.

End PostUrl.

(** Whatever the body, the handler answers: its [catch] lets nothing
    through. *)
Lemma post_url_answers env now_ms iso v w :
  ∃ w' resp, post_url env now_ms iso v w = (w', inr resp).
Proof.
  unfold post_url, try_catch.
  destruct (negb (truthy v)) eqn:Ht; [by eexists _, _ |].
  destruct v as [| | b | n | s |];
    try (unfold throw, console_error, mbind, M_bind, mret, M_ret;
         by eexists _, _).
  unfold mbind, M_bind, mret, M_ret, dynamodb_query, yield.
  destruct (index_items s (table w)) as [| [k it] rest]; [| by eexists _, _].
  unfold dynamodb_put, console_error.
  destruct (table (env w) !! generate s); by eexists _, _.
Qed.

(** ** The two ways out of [GET /url/:shortUrl] *)

Lemma get_url_found k w w1 item :
  daxClient_get k w = (w1, inr (Some item)) →
  get_url k w
  = (with_inflight (inflight w1 ++ [k]) w1, inr (Redirect 301 (long_url item))).
Proof.
  intros Hg. unfold get_url, try_catch, mbind, M_bind. by rewrite Hg.
Qed.




Lemma cache_coherent_miss k w :
  cache_coherent w → table w !! k = None → dax w !! k = None.
Proof.
  intros Hc Ht. destruct (dax w !! k) as [ci |] eqn:Hd; [| done].
  specialize (Hc k ci Hd). simpl in Hc. rewrite Ht in Hc. discriminate.
Qed.

Lemma index_keys_nonempty_url s w k it rest :
  index_keys_nonempty w → index_items s (table w) = (k, it) :: rest → s ≠ "".
Proof.
  intros Hwf Hq Hs. apply index_items_head in Hq as [Hk Hu].
  apply (Hwf k it Hk). by rewrite Hu, Hs.
Qed.

(** ** Creation *)

(** C1: for every string [s] the store already holds a record for,
    [create s] answers 200 with the short code, the long URL and the [ttl]
    of that record, leaves the world as it was (no write), and the index
    still lists for [s] exactly the records it listed; a single record
    stays single. *)
Theorem create_existing_is_idempotent now_ms iso s w k it rest :
  index_keys_nonempty w →
  index_items s (table w) = (k, it) :: rest →
  create now_ms iso s w = (w, inr (Json 200 (UrlBody k s (ttl it))))
  ∧ table w !! k = Some it
  ∧ long_url it = Some s
  ∧ index_items s (table (create now_ms iso s w).1) = (k, it) :: rest.
Proof.
  intros Hwf Hq.
  assert (Hs : s ≠ "") by eauto using index_keys_nonempty_url.
  assert (Hc : create now_ms iso s w
               = (w, inr (Json 200 (UrlBody k s (ttl it)))))
    by (unfold create; eauto using post_url_existing).
  destruct (index_items_head _ _ _ _ _ Hq) as [Hk Hu].
  split_and!; try done. by rewrite Hc.
Qed.

Lemma example_world_index_keys : index_keys_nonempty example_world.
Proof. apply (bool_decide_unpack _). vm_compute. exact I. Defined.

Lemma create_existing_is_idempotent_witness :
  create 1800000000000 "2027-01-15T08:00:00.000Z" example_url example_world
  = (example_world,
     inr (Json 200 (UrlBody example_code example_url (Some 1731536000))))
  ∧ table example_world !! example_code = Some example_item
  ∧ long_url example_item = Some example_url
  ∧ index_items example_url
      (table (create 1800000000000 "2027-01-15T08:00:00.000Z"
                example_url example_world).1)
    = [(example_code, example_item)].
Proof.
  apply (create_existing_is_idempotent 1800000000000
           "2027-01-15T08:00:00.000Z" example_url example_world
           example_code example_item []).
  - exact example_world_index_keys.
  - vm_compute. reflexivity.
Defined.

(** C10: when the record the store holds for [s] has a [ttl] that is
    already reached and the store has not deleted it yet, the dedup query
    still matches it: [create s] answers 200 with its short code and its
    past [ttl], and writes nothing, so no record with a fresh 365-day
    [ttl] appears. *)
Theorem create_matches_expired_record now_ms iso s w k it rest t :
  index_keys_nonempty w →
  index_items s (table w) = (k, it) :: rest →
  ttl it = Some t →
  expired (now_ms / 1000) it = true →
  create now_ms iso s w = (w, inr (Json 200 (UrlBody k s (Some t))))
  ∧ t <= now_ms / 1000
  ∧ t < compute_ttl now_ms.
Proof.
  intros Hwf Hq Ht Hexp.
  assert (Hs : s ≠ "") by eauto using index_keys_nonempty_url.
  unfold expired in Hexp. rewrite Ht in Hexp. simpl in Hexp.
  apply Z.leb_le in Hexp.
  split_and!.
  - unfold create. rewrite <- Ht. eauto using post_url_existing.
  - done.
  - rewrite compute_ttl_seconds. lia.
Qed.

Lemma create_matches_expired_record_witness :
  create 1800000000000 "2027-01-15T08:00:00.000Z" example_url example_world
  = (example_world,
     inr (Json 200 (UrlBody example_code example_url (Some 1731536000))))
  ∧ 1731536000 <= 1800000000000 / 1000
  ∧ 1731536000 < compute_ttl 1800000000000.
Proof.
  apply (create_matches_expired_record 1800000000000
           "2027-01-15T08:00:00.000Z" example_url example_world
           example_code example_item [] 1731536000).
  - exact example_world_index_keys.
  - vm_compute. reflexivity.
  - reflexivity.
  - vm_compute. reflexivity.
Defined.



(** C8: a body without [longUrl], or with the empty string, is answered
    400 and the world is untouched (nothing written); a non-empty string
    is never answered 400, whatever its syntax: the handler goes on to the
    dedup query and answers 200, 201 or, when the put is rejected, 500. *)
Theorem post_url_validation env now_ms iso w :
  post_url env now_ms iso JUndefined w
  = (w, inr (Json 400 (ErrorBody "longUrl is required")))
  ∧ post_url env now_ms iso (JStr "") w
    = (w, inr (Json 400 (ErrorBody "longUrl is required")))
  ∧ (∀ s, s ≠ "" →
       ∃ w' status body,
         post_url env now_ms iso (JStr s) w = (w', inr (Json status body))
         ∧ (status = 200 ∨ status = 201 ∨ status = 500)
         ∧ (index_items s (table w) ≠ [] → status = 200)
         ∧ (index_items s (table w) = [] →
            table (env w) !! generate s = None → status = 201)).
Proof.
  split_and!; try reflexivity.
  intros s Hs.
  destruct (index_items s (table w)) as [| [k it] rest] eqn:Hq.
  - destruct (table (env w) !! generate s) as [r |] eqn:Hk.
    + eexists _, 500, _. split; [by eapply post_url_conflict |].
      split_and!; [tauto | done | done].
    + eexists _, 201, _. split; [by eapply post_url_fresh |].
      split_and!; [tauto | done | done].
  - eexists _, 200, _. split; [by eapply post_url_existing |].
    split_and!; [tauto | done | done].
Qed.

Lemma post_url_validation_witness :
  ∃ w' status body,
    post_url id 1700000000123 "2023-11-14T22:13:20.123Z"
      (JStr "not a url, just words") empty_world
    = (w', inr (Json status body))
    ∧ (status = 200 ∨ status = 201 ∨ status = 500)
    ∧ (index_items "not a url, just words" (table empty_world) ≠ [] →
       status = 200)
    ∧ (index_items "not a url, just words" (table empty_world) = [] →
       table (id empty_world) !! generate "not a url, just words" = None →
       status = 201).
Proof.
  apply (post_url_validation id 1700000000123 "2023-11-14T22:13:20.123Z"
           empty_world).
  discriminate.
Defined.

(** ** Resolution *)



(** C9: when [daxClient.get] finds an item, the handler issues one
    update of the counter, for this short code, and answers 301 to the
    item's long URL without waiting for it: the answer is the same for
    every outcome of the update.  The update adds 1 to [access_count] in
    the table and leaves the cache alone; when it fails, the only trace is
    one line on the console, the table and the answer are unaffected. *)
Theorem resolve_counts_in_background k w w1 item :
  daxClient_get k w = (w1, inr (Some item)) →
  (resolve k w).2 = inr (Redirect 301 (long_url item))
  ∧ inflight (resolve k w).1 = (inflight w ++ [k])%list
  ∧ table (resolve k w).1 = table w
  ∧ console (resolve k w).1 = console w
  ∧ (∀ outcome,
       (resolve_then_settle k outcome w).2
       = inr (Redirect 301 (long_url item)))
  ∧ (let w' := (resolve_then_settle k None w).1 in
     table w' = partial_alter (add_access_count 1) k (table w)
     ∧ (∀ it, table w !! k = Some it →
          access_count <$> table w' !! k = Some (access_count it + 1))
     ∧ dax w' = dax w1
     ∧ console w' = console w
     ∧ inflight w' = inflight w)
  ∧ (∀ err,
       let w' := (resolve_then_settle k (Some err) w).1 in
       table w' = table w
       ∧ dax w' = dax w1
       ∧ console w' = (console w ++ [("Error updating access count:", err)])%list
       ∧ inflight w' = inflight w).
Proof.
  intros Hg.
  assert (Hw1 : table w1 = table w ∧ console w1 = console w
                ∧ inflight w1 = inflight w).
  { unfold daxClient_get in Hg.
    destruct (dax w !! k); [by simplify_eq |].
    destruct (table w !! k); by simplify_eq. }
  destruct Hw1 as (Ht & Hc & Hi).
  assert (Hr : resolve k w
               = (with_inflight (inflight w ++ [k]) w1,
                  inr (Redirect 301 (long_url item)))).
  { unfold resolve. rewrite (get_url_found k w w1 item Hg). by rewrite Hi. }
  assert (Hs : ∀ outcome,
             resolve_then_settle k outcome w
             = (settle_update (List.length (inflight w)) outcome
                  (with_inflight (inflight w ++ [k]) w1),
                inr (Redirect 301 (long_url item)))).
  { intros outcome. unfold resolve_then_settle. by rewrite Hr. }
  assert (Hl : ((inflight w ++ [k])%list : list string) !! List.length (inflight w) = Some k)
    by apply list_lookup_middle, eq_refl.
  assert (Hd : delete (List.length (inflight w)) (inflight w ++ [k])%list
               = inflight w)
    by (rewrite delete_middle; apply app_nil_r).
  assert (Hsome : ∀ err,
             settle_update (List.length (inflight w)) (Some err)
               (with_inflight (inflight w ++ [k]) w1)
             = mkWorld (table w) (dax w1)
                 (console w ++ [("Error updating access count:", err)])
                 (inflight w)).
  { intros err. unfold settle_update. simpl. rewrite Hl, Hd.
    unfold with_inflight, with_console. simpl. by rewrite Ht, Hc. }
  assert (Hnone :
             settle_update (List.length (inflight w)) None
               (with_inflight (inflight w ++ [k]) w1)
             = mkWorld (partial_alter (add_access_count 1) k (table w))
                 (dax w1) (console w) (inflight w)).
  { unfold settle_update. simpl. rewrite Hl, Hd.
    unfold with_inflight, with_table. simpl. by rewrite Ht, Hc. }
  rewrite Hr. cbv zeta. rewrite Hs, Hnone. simpl. split_and!; try done.
  - intros outcome. by rewrite Hs.
  - intros it Hit. by rewrite lookup_partial_alter_eq, Hit.
  - intros err. by rewrite Hs, Hsome.
Qed.

Lemma resolve_counts_in_background_witness :
  (resolve example_code example_world).2
  = inr (Redirect 301 (Some example_url))
  ∧ inflight (resolve example_code example_world).1 = [example_code]
  ∧ (∀ outcome,
       (resolve_then_settle example_code outcome example_world).2
       = inr (Redirect 301 (Some example_url)))
  ∧ (∀ err,
       table (resolve_then_settle example_code (Some err) example_world).1
       = table example_world).
Proof.
  destruct (resolve_counts_in_background example_code example_world
              (with_dax {[ example_code := example_item ]} example_world)
              example_item)
    as (H1 & H2 & _ & _ & H5 & _ & H7).
  - vm_compute. reflexivity.
  - split_and!; [exact H1 | exact H2 | exact H5 |].
    intros err. apply (H7 err).
Defined.



(** C2, as the code has it: when the put of [create longUrl] is rejected
    because the short code is taken by the time it reaches the store, in
    particular by the record a concurrent create of the same URL wrote
    after the dedup query, the handler does not read again: its [catch]
    writes one line on the console and answers 500 with
    [{error: 'Internal server error'}]; the winning record stays as the
    winner wrote it. *)
Theorem create_lost_race_is_500 env now_ms iso s w winner :
  s ≠ "" →
  index_items s (table w) = [] →
  table (env w) !! generate s = Some winner →
  long_url winner = Some s →
  let out := post_url env now_ms iso (JStr s) w in
  out.2 = inr (Json 500 (ErrorBody "Internal server error"))
  ∧ table out.1 = table (env w)
  ∧ table out.1 !! generate s = Some winner
  ∧ console out.1
    = (console (env w)
         ++ [("Error creating short URL:", ConditionalCheckFailedException)])%list
  ∧ (∀ body, out.2 ≠ inr (Json 200 body))
  ∧ (∀ body, out.2 ≠ inr (Json 201 body)).
Proof.
  intros Hs Hq Hk _ out. subst out.
  rewrite (post_url_conflict env now_ms iso s w Hs winner Hq Hk). simpl.
  split_and!; done.
Qed.

Lemma create_lost_race_is_500_witness :
  (post_url racing_create 1700000000123 "2023-11-14T22:13:20.123Z"
     (JStr example_url) empty_world).2
  = inr (Json 500 (ErrorBody "Internal server error")).
Proof.
  destruct (create_lost_race_is_500 racing_create 1700000000123
              "2023-11-14T22:13:20.123Z" example_url empty_world
              (mkItem (Some example_url) (Some 1731536000)
                      (Some "2023-11-14T22:13:20.100Z") 0))
    as [H _].
  - discriminate.
  - vm_compute. reflexivity.
  - vm_compute. reflexivity.
  - reflexivity.
  - exact H.
Defined.

(** C2 fails as stated: two creates of the same URL race, the other one
    writes its record between this one's query and put; this one is
    answered 500, not the winning record. *)
Lemma create_lost_race_counterexample :
  let winner := mkItem (Some example_url) (Some 1731536000)
                       (Some "2023-11-14T22:13:20.100Z") 0 in
  let out := post_url racing_create 1700000000123 "2023-11-14T22:13:20.123Z"
               (JStr example_url) empty_world in
  index_items example_url (table empty_world) = []
  ∧ table (racing_create empty_world) !! generate example_url = Some winner
  ∧ out.2 = inr (Json 500 (ErrorBody "Internal server error"))
  ∧ out.2 ≠ inr (Json 200 (UrlBody example_code example_url (ttl winner)))
  ∧ out.2 ≠ inr (Json 201 (UrlBody example_code example_url (ttl winner))).
Proof.
  cbv zeta.
  assert (H : (post_url racing_create 1700000000123 "2023-11-14T22:13:20.123Z"
                 (JStr example_url) empty_world).2
              = inr (Json 500 (ErrorBody "Internal server error")))
    by (vm_compute; reflexivity).
  rewrite H. split_and!.
  - vm_compute. reflexivity.
  - vm_compute. reflexivity.
  - reflexivity.
  - discriminate.
  - discriminate.
Qed.




(** ** The short code *)

(** C4, with the example as the code computes it: whenever [POST /url]
    answers 201, the body was a string, and the short code it answers and
    stores under is the first 16 characters of the hexadecimal SHA-256
    digest of exactly that string, sixteen lower-case hexadecimal
    characters; nothing is normalized, a trailing slash or the case of the
    scheme changes the code.  Creating
    [https://example.com/very/long/url] yields [8ec596c44bd62b6b]. *)
Theorem created_code_is_sha256_prefix :
  (∀ env now_ms iso v w w' short long t,
     post_url env now_ms iso v w = (w', inr (Json 201 (UrlBody short long t))) →
     v = JStr long
     ∧ short = substring 0 16 (SHA256.hex_digest long)
     ∧ String.length short = 16%nat
     ∧ all_hex short = true
     ∧ long_url <$> table w' !! short = Some (Some long))
  ∧ (create 1700000000123 "2023-11-14T22:13:20.123Z" example_url
       empty_world).2
    = inr (Json 201 (UrlBody "8ec596c44bd62b6b"
                       "https://example.com/very/long/url" (Some 1731536000)))
  ∧ SHA256.hex_digest "https://example.com/very/long/url"
    = "8ec596c44bd62b6b218fc45bed72fd6a1bdb732db2f19b7b840bd4dde5e35061"
  ∧ generate "https://example.com/very/long/url/" ≠ generate example_url
  ∧ generate "HTTPS://example.com/very/long/url" ≠ generate example_url.
Proof.
  split_and!.
  - intros env now_ms iso v w w' short long t Hp.
    unfold post_url, try_catch in Hp.
    destruct (negb (truthy v)) eqn:Htruthy; [discriminate Hp |].
    destruct v as [| | b | n | s |]; try discriminate Hp.
    assert (Hs : s ≠ "").
    { apply truthy_JStr. by destruct (truthy (JStr s)). }
    fold (try_catch (A := Response)) in Hp.
    assert (Hp' : post_url env now_ms iso (JStr s) w
                  = (w', inr (Json 201 (UrlBody short long t)))).
    { unfold post_url. by rewrite Htruthy. }
    clear Hp.
    destruct (index_items s (table w)) as [| [k0 it0] rest] eqn:Hq.
    + destruct (table (env w) !! generate s) as [r |] eqn:Hk.
      * rewrite (post_url_conflict env now_ms iso s w Hs r Hq Hk) in Hp'.
        discriminate Hp'.
      * rewrite (post_url_fresh env now_ms iso s w Hs Hq Hk) in Hp'.
        simplify_eq. split_and!; try done.
        -- apply generate_length.
        -- apply generate_all_hex.
        -- simpl. by rewrite lookup_insert_eq.
    + rewrite (post_url_existing env now_ms iso s w Hs k0 it0 rest Hq) in Hp'.
      discriminate Hp'.
  - vm_compute. reflexivity.
  - vm_compute. reflexivity.
  - vm_compute. discriminate.
  - vm_compute. discriminate.
Qed.

Lemma created_code_is_sha256_prefix_witness :
  JStr example_url = JStr example_url
  ∧ example_code = substring 0 16 (SHA256.hex_digest example_url)
  ∧ String.length example_code = 16%nat
  ∧ all_hex example_code = true
  ∧ long_url <$> table example_world !! example_code
    = Some (Some example_url).
Proof.
  destruct created_code_is_sha256_prefix as [H _].
  apply (H id 1700000000123 "2023-11-14T22:13:20.123Z" (JStr example_url)
           empty_world example_world example_code example_url
           (Some 1731536000)).
  vm_compute. reflexivity.
Defined.

(** C4 fails on its example: the first 16 hexadecimal characters of the
    SHA-256 digest of [https://example.com/very/long/url] are
    [8ec596c44bd62b6b], and that is the short code [create] answers, not
    [d4c9d9027326271a]. *)
Lemma example_code_counterexample :
  generate "https://example.com/very/long/url" = "8ec596c44bd62b6b"
  ∧ generate "https://example.com/very/long/url" ≠ "d4c9d9027326271a"
  ∧ (create 1700000000123 "2023-11-14T22:13:20.123Z"
       "https://example.com/very/long/url" empty_world).2
    = inr (Json 201 (UrlBody "8ec596c44bd62b6b"
                       "https://example.com/very/long/url" (Some 1731536000)))
  ∧ (create 1700000000123 "2023-11-14T22:13:20.123Z"
       "https://example.com/very/long/url" empty_world).2
    ≠ inr (Json 201 (UrlBody "d4c9d9027326271a"
                       "https://example.com/very/long/url" (Some 1731536000))).
Proof.
  split_and!.
  - vm_compute. reflexivity.
  - vm_compute. discriminate.
  - vm_compute. reflexivity.
  - vm_compute. discriminate.
Qed.

(** ** Invariants of the handlers

    Both well-formedness conditions hold of the empty world and are kept
    by every step a handler takes; the sweep keeps the first one and may
    leave swept items behind in the cache. *)
Section Invariants.

Lemma empty_world_index_keys : index_keys_nonempty empty_world.
Proof. apply map_Forall_empty. Qed.

Lemma empty_world_cache_coherent : cache_coherent empty_world.
Proof. apply map_Forall_empty. Qed.

(** The outcomes of [create], gathered: the world is unchanged, or has
    one more console line, or one more item under a free key. *)
Lemma create_world now_ms iso s w :
  (create now_ms iso s w).1 = w
  ∨ (∃ l, (create now_ms iso s w).1 = with_console l w)
  ∨ (s ≠ "" ∧ table w !! generate s = None
     ∧ ∃ it, long_url it = Some s
             ∧ (create now_ms iso s w).1
               = with_table (<[generate s := it]> (table w)) w).
Proof.
  unfold create.
  destruct (decide (s = "")) as [-> | Hs]; [by left |].
  destruct (index_items s (table w)) as [| [k0 it0] rest] eqn:Hq.
  - destruct (table w !! generate s) as [r |] eqn:Hk.
    + right. left.
      rewrite (post_url_conflict id now_ms iso s w Hs r Hq Hk).
      by eexists.
    + right. right.
      rewrite (post_url_fresh id now_ms iso s w Hs Hq Hk).
      split_and!; try done.
      eexists. split; [| reflexivity]. reflexivity.
  - left. by rewrite (post_url_existing id now_ms iso s w Hs k0 it0 rest Hq).
Qed.

Lemma create_keeps_index_keys now_ms iso s w :
  index_keys_nonempty w → index_keys_nonempty (create now_ms iso s w).1.
Proof.
  intros Hwf.
  destruct (create_world now_ms iso s w)
    as [-> | [[l ->] | (Hs & Hk & it & Hu & ->)]]; try done.
  unfold index_keys_nonempty. simpl. apply map_Forall_insert_2; [| done].
  rewrite Hu. congruence.
Qed.

Lemma create_keeps_cache_coherent now_ms iso s w :
  cache_coherent w → cache_coherent (create now_ms iso s w).1.
Proof.
  intros Hcoh.
  destruct (create_world now_ms iso s w)
    as [-> | [[l ->] | (Hs & Hk & it & Hu & ->)]]; try done.
  intros k ci Hci. simpl in *.
  destruct (decide (k = generate s)) as [-> | Hne].
  - by rewrite (cache_coherent_miss _ _ Hcoh Hk) in Hci.
  - rewrite lookup_insert_ne by done. by apply (Hcoh k ci).
Qed.

Lemma resolve_table k w : table (resolve k w).1 = table w.
Proof.
  unfold resolve, get_url, try_catch, mbind, M_bind, daxClient_get.
  destruct (dax w !! k); [done |]. by destruct (table w !! k).
Qed.

Lemma resolve_keeps_index_keys k w :
  index_keys_nonempty w → index_keys_nonempty (resolve k w).1.
Proof. unfold index_keys_nonempty. by rewrite resolve_table. Qed.


Lemma settle_update_table_lookup i outcome w k :
  long_url <$> table w !! k = None
  ∧ (long_url <$> table (settle_update i outcome w) !! k = None
     ∨ long_url <$> table (settle_update i outcome w) !! k = Some None)
  ∨ (∃ u, long_url <$> table w !! k = Some u
          ∧ long_url <$> table (settle_update i outcome w) !! k = Some u).
Proof.
  unfold settle_update.
  destruct (inflight w !! i) as [k0 |];
    [destruct outcome as [err |] |]; simpl.
  2: {
    destruct (decide (k0 = k)) as [-> | Hne].
    - rewrite lookup_partial_alter_eq.
      destruct (table w !! k) as [it |]; simpl; [right | left]; eauto.
    - rewrite lookup_partial_alter_ne by done.
      destruct (table w !! k) as [it |]; simpl; [right | left]; eauto. }
  all: destruct (table w !! k) as [it |]; simpl; [right | left]; eauto.
Qed.


Lemma settle_update_keeps_index_keys i outcome w :
  index_keys_nonempty w → index_keys_nonempty (settle_update i outcome w).
Proof.
  intros Hwf k it Hk Hu.
  destruct (settle_update_table_lookup i outcome w k)
    as [[_ [H | H]] | (u & H0 & H)]; rewrite Hk in H; simpl in H;
    try congruence.
  destruct (table w !! k) as [it0 |] eqn:Hk0; [| discriminate].
  simpl in H0. apply (Hwf k it0 Hk0). congruence.
Qed.


Lemma ttl_sweep_keeps_index_keys now_s ks w :
  index_keys_nonempty w → index_keys_nonempty (ttl_sweep now_s ks w).
Proof.
  intros Hwf k it Hk. unfold ttl_sweep in Hk. simpl in Hk.
  apply map_lookup_filter_Some in Hk as [Hk _]. by apply (Hwf k it).
Qed.

End Invariants.

Lemma create_again now1 iso1 now2 iso2 s w w1 status k u t :
  create now1 iso1 s w = (w1, inr (Json status (UrlBody k u t))) →
  create now2 iso2 s w1 = (w1, inr (Json 200 (UrlBody k s t))).
Proof.
  intros Hc. unfold create in *.
  destruct (decide (s = "")) as [-> | Hs]; [discriminate Hc |].
  destruct (index_items s (table w)) as [| [k0 it0] rest] eqn:Hq.
  - destruct (table w !! generate s) as [r |] eqn:Hk.
    + rewrite (post_url_conflict id now1 iso1 s w Hs r Hq Hk) in Hc.
      discriminate Hc.
    + rewrite (post_url_fresh id now1 iso1 s w Hs Hq Hk) in Hc.
      simplify_eq.
      rewrite (post_url_existing id now2 iso2 u _ Hs (generate u)
                 (mkItem (Some u) (Some (compute_ttl now1)) (Some iso1) 0) []);
        [done |].
      simpl. by apply index_items_fresh_singleton.
  - rewrite (post_url_existing id now1 iso1 s w Hs k0 it0 rest Hq) in Hc.
    simplify_eq. by erewrite post_url_existing.
Qed.

(** X2: Calling [create] again after it answered with a short code answers
    200 with the same short code and the same [ttl], and writes nothing. *)
Lemma create_twice now1 iso1 now2 iso2 s w w1 status k u t :
  create now1 iso1 s w = (w1, inr (Json status (UrlBody k u t))) →
  create now2 iso2 s w1 = (w1, inr (Json 200 (UrlBody k s t))).
Proof. apply create_again. Qed.

(** A counter left behind.  The record of [example_world] is resolved,
    the store sweeps it before the update issued by that resolution
    arrives, and the update recreates the key with the counter alone.  The
    index does not list that item, the conditional put meets it, and the
    next [create] of the same URL is answered 500. *)
Example create_meets_orphan_counter :
  let w1 := (resolve example_code example_world).1 in
  let w2 := ttl_sweep 1800000000 {[ example_code ]} w1 in
  let w3 := settle_update 0 None w2 in
  table w3 !! example_code = Some (mkItem None None None 1)
  ∧ index_items example_url (table w3) = []
  ∧ (create 1800000001000 "2027-01-15T08:00:01.000Z" example_url w3).2
    = inr (Json 500 (ErrorBody "Internal server error")).
Proof. cbv zeta. split_and!; vm_compute; reflexivity. Qed.

(** ** Further properties of the creation path *)

(** X1: Every short code the generator computes is sixteen characters long
    and made of lower-case hexadecimal digits, whatever the input. *)
Theorem short_code_shape s :
  String.length (generate s) = 16%nat ∧ all_hex (generate s) = true.
Proof. split; [apply generate_length | apply generate_all_hex]. Qed.

Lemma create_twice_witness :
  create 1800000000000 "2027-01-15T08:00:00.000Z" example_url example_world
  = (example_world,
     inr (Json 200 (UrlBody example_code example_url (Some 1731536000)))).
Proof.
  apply (create_twice 1700000000123 "2023-11-14T22:13:20.123Z"
           1800000000000 "2027-01-15T08:00:00.000Z" example_url
           empty_world example_world 201 example_code example_url
           (Some 1731536000)).
  vm_compute. reflexivity.
Defined.

(** The table after [POST /url], for a string body: the table the put
    met, with at most the item under the generated key added. *)
Lemma post_url_table env now_ms iso s w :
  table (post_url env now_ms iso (JStr s) w).1 = table w
  ∨ table (post_url env now_ms iso (JStr s) w).1 = table (env w)
  ∨ (table (env w) !! generate s = None
     ∧ table (post_url env now_ms iso (JStr s) w).1
       = <[generate s :=
             mkItem (Some s) (Some (compute_ttl now_ms)) (Some iso) 0]>
           (table (env w))).
Proof.
  destruct (decide (s = "")) as [-> | Hs]; [by left |].
  destruct (index_items s (table w)) as [| [k0 it0] rest] eqn:Hq.
  - destruct (table (env w) !! generate s) as [r |] eqn:Hk.
    + right. left. by rewrite (post_url_conflict env now_ms iso s w Hs r Hq Hk).
    + right. right. by rewrite (post_url_fresh env now_ms iso s w Hs Hq Hk).
  - left. by rewrite (post_url_existing env now_ms iso s w Hs k0 it0 rest Hq).
Qed.

Lemma post_url_not_string env now_ms iso v w :
  (∀ s, v ≠ JStr s) →
  post_url env now_ms iso v w
  = if truthy v then
      (with_console
         (console w
            ++ [("Error creating short URL:",
                 TypeError "ERR_INVALID_ARG_TYPE")]) w,
       inr (Json 500 (ErrorBody "Internal server error")))
    else (w, inr (Json 400 (ErrorBody "longUrl is required"))).
Proof.
  intros Hv. destruct v as [| | b | n | s |]; try reflexivity.
  - by destruct b.
  - unfold post_url, try_catch. simpl. by destruct (n =? 0).
  - by destruct (Hv s).
Qed.

(** X3: [POST /url] never overwrites and never deletes: whatever the body,
    an item of the table is still there, unchanged, after the handler,
    and the table has grown by one item at most. *)
Theorem post_url_keeps_items now_ms iso v w k it :
  table w !! k = Some it →
  table (post_url id now_ms iso v w).1 !! k = Some it
  ∧ table w ⊆ table (post_url id now_ms iso v w).1
  ∧ (size (table (post_url id now_ms iso v w).1) <= S (size (table w)))%nat.
Proof.
  intros Hk.
  assert (Hcases : table (post_url id now_ms iso v w).1 = table w
                   ∨ ∃ k0 it0, table w !! k0 = None
                       ∧ table (post_url id now_ms iso v w).1
                         = <[k0 := it0]> (table w)).
  { assert (Hv : (∃ s, v = JStr s) ∨ (∀ s, v ≠ JStr s))
      by (destruct v; eauto).
    destruct Hv as [[s ->] | Hv].
    - destruct (post_url_table id now_ms iso s w) as [H | [H | [Hn H]]];
        [by left | by left | right; eauto].
    - left. rewrite (post_url_not_string _ _ _ _ _ Hv).
      by destruct (truthy v). }
  destruct Hcases as [-> | (k0 & it0 & Hk0 & ->)].
  - split_and!; [done | done | lia].
  - split_and!.
    + rewrite lookup_insert_ne; [done | congruence].
    + by apply insert_subseteq.
    + by rewrite map_size_insert_None.
Qed.

Lemma post_url_keeps_items_witness :
  table (post_url id 1800000000000 "2027-01-15T08:00:00.000Z"
           (JStr "https://example.org/") example_world).1 !! example_code
  = Some example_item.
Proof.
  destruct (post_url_keeps_items 1800000000000 "2027-01-15T08:00:00.000Z"
              (JStr "https://example.org/") example_world example_code
              example_item) as [H _].
  - vm_compute. reflexivity.
  - exact H.
Defined.

(** X4: A [longUrl] that is not a string: the falsy values ([null],
    [false], [0], a missing key) are answered 400 and leave the world
    untouched; the truthy ones (a number, [true], an object, an array)
    pass the guard, make [hash.update] throw, and are answered 500 with
    one line on the console and nothing written to the table. *)
Theorem post_url_rejects_non_strings env now_ms iso v w :
  (∀ s, v ≠ JStr s) →
  let out := post_url env now_ms iso v w in
  table out.1 = table w ∧ dax out.1 = dax w ∧ inflight out.1 = inflight w
  ∧ (truthy v = false →
     out = (w, inr (Json 400 (ErrorBody "longUrl is required"))))
  ∧ (truthy v = true →
     out.2 = inr (Json 500 (ErrorBody "Internal server error"))
     ∧ console out.1
       = (console w
            ++ [("Error creating short URL:",
                 TypeError "ERR_INVALID_ARG_TYPE")])%list).
Proof.
  intros Hv out. subst out. rewrite (post_url_not_string _ _ _ _ _ Hv).
  destruct (truthy v); simpl; split_and!; done.
Qed.

Lemma post_url_rejects_non_strings_witness :
  (post_url id 1700000000123 "2023-11-14T22:13:20.123Z" (JNum 42)
     example_world).2
  = inr (Json 500 (ErrorBody "Internal server error"))
  ∧ post_url id 1700000000123 "2023-11-14T22:13:20.123Z" JNull example_world
    = (example_world, inr (Json 400 (ErrorBody "longUrl is required"))).
Proof.
  split.
  - destruct (post_url_rejects_non_strings id 1700000000123
                "2023-11-14T22:13:20.123Z" (JNum 42) example_world)
      as (_ & _ & _ & _ & H); [discriminate |].
    by destruct H.
  - destruct (post_url_rejects_non_strings id 1700000000123
                "2023-11-14T22:13:20.123Z" JNull example_world)
      as (_ & _ & _ & H & _); [discriminate |].
    by apply H.
Defined.

(** ** The legacy endpoint *)

Lemma decodeURIComponent_percent_free s :
  percent_free s = true → decodeURIComponent s = Some s.
Proof.
  induction s as [| c s IH]; simpl; [done |].
  intros [Hc Hs]%andb_true_iff. rewrite Hc, (IH Hs). done.
Qed.

Lemma emit_nonempty octets rest r : emit octets rest = Some r → r ≠ "".
Proof.
  unfold emit. destruct (utf8_valid octets) eqn:Hv; [| done].
  destruct rest as [r0 |]; simpl; [| done]. intros [= <-].
  destruct octets as [| b bs]; [done |]. done.
Qed.

Lemma decodeURIComponent_nonempty param s :
  param ≠ "" → decodeURIComponent param = Some s → s ≠ "".
Proof.
  destruct param as [| c rest]; [done |]. intros _. simpl.
  repeat case_match; try done;
    try (destruct (decodeURIComponent _); simpl; congruence);
    eauto using emit_nonempty.
Qed.

Lemma post_url_legacy_decoded env now_ms iso param s w :
  param ≠ "" →
  decodeURIComponent param = Some s →
  post_url_legacy env now_ms iso param w = post_url env now_ms iso (JStr s) w.
Proof.
  intros Hp Hd.
  assert (Hs : s ≠ "") by eauto using decodeURIComponent_nonempty.
  unfold post_url_legacy, post_url. rewrite Hd.
  destruct s as [| c0 s0]; [done |]. reflexivity.
Qed.

Lemma post_url_legacy_malformed env now_ms iso param w :
  decodeURIComponent param = None →
  post_url_legacy env now_ms iso param w
  = (with_console
       (console w ++ [("Error creating short URL:", URIError)]) w,
     inr (Json 500 (ErrorBody "Internal server error"))).
Proof. intros Hd. unfold post_url_legacy, try_catch. by rewrite Hd. Qed.

(** X5: The legacy endpoint is [POST /url] on the decoded parameter: when
    [req.params.longUrl] decodes to [s], it answers and writes exactly
    what [POST /url] does for the body [{longUrl: s}]; a parameter
    without [%] is its own decoding.  What is hashed and stored is the
    decoded string, not the parameter. *)
Theorem legacy_is_post_url_on_decoded env now_ms iso param s w :
  param ≠ "" →
  decodeURIComponent param = Some s →
  post_url_legacy env now_ms iso param w = post_url env now_ms iso (JStr s) w
  ∧ s ≠ ""
  ∧ (percent_free param = true → s = param).
Proof.
  intros Hp Hd. split_and!.
  - by apply post_url_legacy_decoded.
  - eauto using decodeURIComponent_nonempty.
  - intros Hf. rewrite (decodeURIComponent_percent_free _ Hf) in Hd.
    congruence.
Qed.

Lemma legacy_is_post_url_on_decoded_witness :
  post_url_legacy id 1700000000123 "2023-11-14T22:13:20.123Z"
    "https%3A%2F%2Fexample.com%2Fvery%2Flong%2Furl" empty_world
  = post_url id 1700000000123 "2023-11-14T22:13:20.123Z"
      (JStr example_url) empty_world.
Proof.
  destruct (legacy_is_post_url_on_decoded id 1700000000123
              "2023-11-14T22:13:20.123Z"
              "https%3A%2F%2Fexample.com%2Fvery%2Flong%2Furl"
              example_url empty_world) as [H _].
  - discriminate.
  - vm_compute. reflexivity.
  - exact H.
Defined.

(** X6: A parameter that [decodeURIComponent] refuses (a [%] not followed
    by two hexadecimal digits, or escapes that are not well-formed UTF-8)
    is answered 500 by the legacy endpoint: the [URIError] is caught,
    logged, and nothing is read from or written to the store.  The same
    string sent as the body of [POST /url] is not refused. *)
Theorem legacy_malformed_escape_is_500 env now_ms iso param w :
  param ≠ "" →
  decodeURIComponent param = None →
  let out := post_url_legacy env now_ms iso param w in
  out.2 = inr (Json 500 (ErrorBody "Internal server error"))
  ∧ table out.1 = table w ∧ dax out.1 = dax w ∧ inflight out.1 = inflight w
  ∧ console out.1
    = (console w ++ [("Error creating short URL:", URIError)])%list
  ∧ percent_free param = false
  ∧ (∀ body, (post_url env now_ms iso (JStr param) w).2
             ≠ inr (Json 400 body)).
Proof.
  intros Hp Hd out. subst out.
  rewrite (post_url_legacy_malformed env now_ms iso param w Hd). simpl.
  split_and!; try done.
  - destruct (percent_free param) eqn:Hf; [| done].
    rewrite (decodeURIComponent_percent_free _ Hf) in Hd. discriminate.
  - intros body.
    destruct (index_items param (table w)) as [| [k0 it0] rest] eqn:Hq.
    + destruct (table (env w) !! generate param) as [r |] eqn:Hk.
      * by rewrite (post_url_conflict env now_ms iso param w Hp r Hq Hk).
      * by rewrite (post_url_fresh env now_ms iso param w Hp Hq Hk).
    + by rewrite (post_url_existing env now_ms iso param w Hp k0 it0 rest Hq).
Qed.

Lemma legacy_malformed_escape_is_500_witness :
  (post_url_legacy id 1700000000123 "2023-11-14T22:13:20.123Z"
     "https://example.com/?discount=100%" empty_world).2
  = inr (Json 500 (ErrorBody "Internal server error")).
Proof.
  destruct (legacy_malformed_escape_is_500 id 1700000000123
              "2023-11-14T22:13:20.123Z"
              "https://example.com/?discount=100%" empty_world) as [H _].
  - discriminate.
  - vm_compute. reflexivity.
  - exact H.
Defined.

(** X7: A record created through one endpoint is found by the other: after
    [POST /url] answered a short code for [s], the legacy endpoint
    called with any parameter decoding to [s] answers 200 with that
    short code and [ttl], and writes nothing. *)
Theorem legacy_finds_created_record now1 iso1 now2 iso2 param s w w1
    status k u t :
  param ≠ "" →
  decodeURIComponent param = Some s →
  create now1 iso1 s w = (w1, inr (Json status (UrlBody k u t))) →
  post_url_legacy id now2 iso2 param w1
  = (w1, inr (Json 200 (UrlBody k s t))).
Proof.
  intros Hp Hd Hc. rewrite (post_url_legacy_decoded id now2 iso2 param s w1 Hp Hd).
  exact (create_again now1 iso1 now2 iso2 s w w1 status k u t Hc).
Qed.

Lemma legacy_finds_created_record_witness :
  post_url_legacy id 1800000000000 "2027-01-15T08:00:00.000Z"
    "https%3A%2F%2Fexample.com%2Fvery%2Flong%2Furl" example_world
  = (example_world,
     inr (Json 200 (UrlBody example_code example_url (Some 1731536000)))).
Proof.
  apply (legacy_finds_created_record 1700000000123
           "2023-11-14T22:13:20.123Z" 1800000000000
           "2027-01-15T08:00:00.000Z"
           "https%3A%2F%2Fexample.com%2Fvery%2Flong%2Furl" example_url
           empty_world example_world 201 example_code example_url
           (Some 1731536000)).
  - discriminate.
  - vm_compute. reflexivity.
  - vm_compute. reflexivity.
Defined.

(** ** Runs: what every reachable world satisfies *)

(** The world after a request served from start to end by either
    creation endpoint: unchanged, or one console line longer, or one
    item larger under the key generated from a non-empty URL. *)
Lemma post_url_id_world now_ms iso v w :
  (post_url id now_ms iso v w).1 = w
  ∨ (∃ l, (post_url id now_ms iso v w).1 = with_console l w)
  ∨ (∃ s it, s ≠ "" ∧ table w !! generate s = None ∧ long_url it = Some s
             ∧ (post_url id now_ms iso v w).1
               = with_table (<[generate s := it]> (table w)) w).
Proof.
  assert (Hv : (∃ s, v = JStr s) ∨ (∀ s, v ≠ JStr s)) by (destruct v; eauto).
  destruct Hv as [[s ->] | Hv].
  - destruct (create_world now_ms iso s w) as [H | [H | (Hs & Hk & it & Hu & H)]];
      [by left | by right; left | right; right].
    exists s, it. done.
  - rewrite (post_url_not_string _ _ _ _ _ Hv).
    destruct (truthy v); [right; left; by eexists | by left].
Qed.

Lemma post_url_legacy_id_world now_ms iso param w :
  param ≠ "" →
  (post_url_legacy id now_ms iso param w).1 = w
  ∨ (∃ l, (post_url_legacy id now_ms iso param w).1 = with_console l w)
  ∨ (∃ s it, s ≠ "" ∧ table w !! generate s = None ∧ long_url it = Some s
             ∧ (post_url_legacy id now_ms iso param w).1
               = with_table (<[generate s := it]> (table w)) w).
Proof.
  intros Hp. destruct (decodeURIComponent param) as [s |] eqn:Hd.
  - rewrite (post_url_legacy_decoded id now_ms iso param s w Hp Hd).
    apply post_url_id_world.
  - rewrite (post_url_legacy_malformed id now_ms iso param w Hd).
    right. left. by eexists.
Qed.

Lemma store_invariant_insert w s it :
  store_invariant w → s ≠ "" → long_url it = Some s →
  store_invariant (with_table (<[generate s := it]> (table w)) w).
Proof.
  intros [Hne Hgen] Hs Hu. split.
  - unfold index_keys_nonempty. simpl. apply map_Forall_insert_2; [| done].
    rewrite Hu. congruence.
  - unfold keys_generated. simpl. apply map_Forall_insert_2; [| done].
    intros u. rewrite Hu. congruence.
Qed.

Lemma settle_update_keeps_keys_generated i outcome w :
  keys_generated w → keys_generated (settle_update i outcome w).
Proof.
  intros Hgen k it Hk u Hu.
  destruct (settle_update_table_lookup i outcome w k)
    as [[_ [H | H]] | (u0 & H0 & H)]; rewrite Hk in H; simpl in H;
    try congruence.
  destruct (table w !! k) as [it0 |] eqn:Hk0; [| discriminate].
  simpl in H0. apply (Hgen k it0 Hk0). congruence.
Qed.

Lemma step_keeps_store_invariant gc w w' :
  step gc w w' → store_invariant w → store_invariant w'.
Proof.
  intros Hstep Hinv. destruct Hstep as [now_ms iso v w | now_ms iso param w Hp
                                        | k w | i outcome w | now_s ks w _].
  - destruct (post_url_id_world now_ms iso v w)
      as [-> | [[l ->] | (s & it & Hs & _ & Hu & ->)]]; try done.
    by apply store_invariant_insert.
  - destruct (post_url_legacy_id_world now_ms iso param w Hp)
      as [-> | [[l ->] | (s & it & Hs & _ & Hu & ->)]]; try done.
    by apply store_invariant_insert.
  - destruct Hinv as [Hne Hgen]. change (get_url k w) with (resolve k w).
    split.
    + by apply resolve_keeps_index_keys.
    + unfold keys_generated. by rewrite (resolve_table k w).
  - destruct Hinv as [Hne Hgen]. split.
    + by apply settle_update_keeps_index_keys.
    + by apply settle_update_keeps_keys_generated.
  - destruct Hinv as [Hne Hgen]. split.
    + by apply ttl_sweep_keeps_index_keys.
    + intros k it Hk. unfold ttl_sweep in Hk. simpl in Hk.
      apply map_lookup_filter_Some in Hk as [Hk _]. by apply (Hgen k it).
Qed.

Lemma reachable_store_invariant gc w : reachable gc w → store_invariant w.
Proof.
  unfold reachable. revert w. apply rtc_ind_r.
  - split; apply map_Forall_empty.
  - eauto using step_keeps_store_invariant.
Qed.

Lemma keys_generated_index w s :
  keys_generated w →
  index_items s (table w) = []
  ∨ ∃ it, index_items s (table w) = [(generate s, it)].
Proof.
  intros Hgen.
  assert (Hall : ∀ k it, (k, it) ∈ index_items s (table w) →
                         k = generate s ∧ table w !! generate s = Some it).
  { intros k it [Hk Hu]%index_items_elem.
    assert (k = generate s) as -> by (by apply (Hgen k it Hk)). done. }
  assert (Hnd : NoDup (index_items s (table w)))
    by apply NoDup_filter, NoDup_map_to_list.
  destruct (index_items s (table w)) as [| [k1 it1] [| [k2 it2] rest]].
  - by left.
  - right. destruct (Hall k1 it1) as [-> _]; [apply list_elem_of_here |].
    by eexists.
  - exfalso.
    destruct (Hall k1 it1) as [-> H1]; [apply list_elem_of_here |].
    destruct (Hall k2 it2) as [-> H2];
      [apply list_elem_of_further, list_elem_of_here |].
    apply NoDup_cons in Hnd as [Hnin _]. apply Hnin.
    rewrite H1 in H2. injection H2 as ->. apply list_elem_of_here.
Qed.

Lemma example_world_reachable gc : reachable gc example_world.
Proof.
  apply rtc_once.
  replace example_world
    with (post_url id 1700000000123 "2023-11-14T22:13:20.123Z"
            (JStr example_url) empty_world).1
    by (vm_compute; reflexivity).
  apply step_post_url.
Qed.

(** X8: In every world the service reaches from an empty table, through
    either creation endpoint, resolutions, settlements of counter
    updates and sweeps of expired items, a long URL has at most one
    record, stored under the short code generated from it, and no record
    has an empty long URL. *)
Theorem reachable_one_record_per_url gc w :
  reachable gc w →
  store_invariant w
  ∧ ∀ s, index_items s (table w) = []
         ∨ ∃ it, index_items s (table w) = [(generate s, it)]
                 ∧ table w !! generate s = Some it
                 ∧ long_url it = Some s ∧ s ≠ "".
Proof.
  intros Hr. pose proof (reachable_store_invariant gc w Hr) as Hinv.
  split; [done |]. destruct Hinv as [Hne Hgen]. intros s.
  destruct (keys_generated_index w s Hgen) as [Hq | [it Hq]]; [by left |].
  right. exists it. destruct (index_items_head _ _ _ _ _ Hq) as [Hk Hu].
  split_and!; try done. eauto using index_keys_nonempty_url.
Qed.

Lemma reachable_one_record_per_url_witness :
  store_invariant example_world
  ∧ ∀ s, index_items s (table example_world) = []
         ∨ ∃ it, index_items s (table example_world) = [(generate s, it)]
                 ∧ table example_world !! generate s = Some it
                 ∧ long_url it = Some s ∧ s ≠ "".
Proof.
  apply (reachable_one_record_per_url true example_world).
  apply example_world_reachable.
Defined.

(** X9: [POST /url] keeps the invariant of the store (no record with an
    empty long URL, every record under the short code generated from its
    long URL) also when other requests that keep it are served between
    its query and its put: the table it leaves is the one it read, the
    one its put met, or that one with the record of a non-empty URL added
    under its generated key. *)
Theorem post_url_keeps_store_invariant env now_ms iso v w :
  store_invariant w →
  store_invariant (env w) →
  store_invariant (post_url env now_ms iso v w).1.
Proof.
  intros Hw Henv.
  assert (Hv : (∃ s, v = JStr s) ∨ (∀ s, v ≠ JStr s)) by (destruct v; eauto).
  destruct Hv as [[s ->] | Hv].
  - destruct (decide (s = "")) as [-> | Hs]; [done |].
    destruct (index_items s (table w)) as [| [k0 it0] rest] eqn:Hq.
    + destruct (table (env w) !! generate s) as [r |] eqn:Hk.
      * by rewrite (post_url_conflict env now_ms iso s w Hs r Hq Hk).
      * rewrite (post_url_fresh env now_ms iso s w Hs Hq Hk). simpl.
        by apply store_invariant_insert.
    + by rewrite (post_url_existing env now_ms iso s w Hs k0 it0 rest Hq).
  - rewrite (post_url_not_string _ _ _ _ _ Hv). by destruct (truthy v).
Qed.

Lemma post_url_keeps_store_invariant_witness :
  store_invariant
    (post_url racing_create 1700000000123 "2023-11-14T22:13:20.123Z"
       (JStr example_url) empty_world).1.
Proof.
  apply post_url_keeps_store_invariant.
  - split; apply map_Forall_empty.
  - apply (reachable_store_invariant true), rtc_once.
    unfold racing_create, create. apply step_post_url.
Defined.






(** ** The access counter *)

Lemma daxClient_get_finds k w it :
  table w !! k = Some it →
  ∃ w1 item,
    daxClient_get k w = (w1, inr (Some item))
    ∧ table w1 = table w ∧ console w1 = console w ∧ inflight w1 = inflight w
    ∧ (dax w !! k ≠ None → dax w1 = dax w).
Proof.
  intros Hk. unfold daxClient_get.
  destruct (dax w !! k) as [ci |] eqn:Hd.
  - by eexists w, ci.
  - rewrite Hk. eexists _, it. by split_and!.
Qed.

Lemma resolve_then_settle_counted k w it :
  table w !! k = Some it →
  let w' := (resolve_then_settle k None w).1 in
  table w' = <[k := counted 1 it]> (table w)
  ∧ console w' = console w ∧ inflight w' = inflight w
  ∧ (dax w !! k ≠ None → dax w' = dax w)
  ∧ ∃ item, (resolve_then_settle k None w).2
            = inr (Redirect 301 (long_url item)).
Proof.
  intros Hk.
  destruct (daxClient_get_finds k w it Hk)
    as (w1 & item & Hg & Ht & Hc & Hi & Hd).
  unfold resolve_then_settle, resolve.
  rewrite (get_url_found k w w1 item Hg). cbv zeta.
  unfold settle_update. simpl.
  rewrite Hi. rewrite (list_lookup_middle (inflight w) [] k _ eq_refl).
  rewrite delete_middle, app_nil_r. unfold with_inflight, with_table. simpl.
  split_and!; try done; [| by eexists].
  rewrite Ht. apply map_eq. intros k'.
  destruct (decide (k' = k)) as [-> | Hne].
  - by rewrite lookup_partial_alter_eq, lookup_insert_eq, Hk.
  - by rewrite lookup_partial_alter_ne, lookup_insert_ne.
Qed.

(** X11: Resolutions add up: after [n] resolutions of a stored short code,
    each counted by the store, its [access_count] is [n] higher and the
    rest of the record, the other records, the console and the requests
    in flight are as before.  A cache that already held the item is not
    touched: the counter it shows stays behind. *)
Theorem resolutions_are_counted n k w it :
  table w !! k = Some it →
  let w' := resolve_repeatedly n k w in
  table w' !! k = Some (counted (Z.of_nat n) it)
  ∧ (∀ k', k' ≠ k → table w' !! k' = table w !! k')
  ∧ console w' = console w ∧ inflight w' = inflight w
  ∧ (dax w !! k ≠ None → dax w' = dax w).
Proof.
  revert w it. induction n as [| n IH]; intros w it Hk.
  - simpl. unfold counted. rewrite Z.add_0_r. by destruct it.
  - destruct (resolve_then_settle_counted k w it Hk)
      as (Ht & Hc & Hi & Hd & _).
    cbn [resolve_repeatedly]. cbv zeta.
    set (w1 := (resolve_then_settle k None w).1) in *.
    assert (Hk1 : table w1 !! k = Some (counted 1 it))
      by (rewrite Ht; apply lookup_insert_eq).
    destruct (IH w1 _ Hk1) as (Hk' & Hother & Hc' & Hi' & Hd').
    split_and!.
    + rewrite Hk'. f_equal. unfold counted. simpl. f_equal. lia.
    + intros k' Hne. rewrite (Hother k' Hne), Ht. by rewrite lookup_insert_ne.
    + congruence.
    + congruence.
    + intros Hin. rewrite Hd' by (rewrite (Hd Hin); done). by apply Hd.
Qed.

Lemma resolutions_are_counted_witness :
  table (resolve_repeatedly 3 example_code example_world) !! example_code
  = Some (counted 3 example_item).
Proof.
  destruct (resolutions_are_counted 3 example_code example_world example_item)
    as [H _].
  - vm_compute. reflexivity.
  - exact H.
Defined.

(** ** Races and expiry *)

Lemma index_items_empty_insert (url : string) (t : gmap string Item) k it :
  index_items url t = [] → long_url it ≠ Some url →
  index_items url (<[k := it]> t) = [].
Proof.
  intros Hq Hu. apply elem_of_nil_inv. intros [k' it'] Hin.
  apply index_items_elem in Hin as [Hk' Hu'].
  apply lookup_insert_Some in Hk' as [[-> ->] | [_ Hk']]; [done |].
  by apply (index_items_nil url t k' it' Hq Hk').
Qed.

(** X12: Two creations of the same new URL that overlap store one record:
    when the other request is served between this one's query and its
    put, this one is answered 500, and the table holds exactly one
    record for the URL, the other request's, and one item more than
    before. *)
Theorem overlapping_creates_store_one now1 iso1 now2 iso2 s w :
  s ≠ "" →
  index_items s (table w) = [] →
  table w !! generate s = None →
  let other := fun w0 => (create now2 iso2 s w0).1 in
  let out := post_url other now1 iso1 (JStr s) w in
  out.2 = inr (Json 500 (ErrorBody "Internal server error"))
  ∧ index_items s (table out.1)
    = [(generate s, mkItem (Some s) (Some (compute_ttl now2)) (Some iso2) 0)]
  ∧ size (table out.1) = S (size (table w)).
Proof.
  intros Hs Hq Hk other out.
  assert (Hother : other w
                   = with_table
                       (<[generate s :=
                            mkItem (Some s) (Some (compute_ttl now2))
                                   (Some iso2) 0]> (table w)) w).
  { unfold other, create. by rewrite (post_url_fresh id now2 iso2 s w Hs Hq Hk). }
  assert (Hmet : table (other w) !! generate s
                 = Some (mkItem (Some s) (Some (compute_ttl now2))
                                (Some iso2) 0))
    by (rewrite Hother; apply lookup_insert_eq).
  subst out. rewrite (post_url_conflict other now1 iso1 s w Hs _ Hq Hmet).
  simpl. rewrite Hother. simpl. split_and!; [done | |].
  - by apply index_items_fresh_singleton.
  - by apply map_size_insert_None.
Qed.

Lemma overlapping_creates_store_one_witness :
  (post_url (fun w0 => (create 1700000000100 "2023-11-14T22:13:20.100Z"
                          example_url w0).1)
     1700000000123 "2023-11-14T22:13:20.123Z" (JStr example_url)
     empty_world).2
  = inr (Json 500 (ErrorBody "Internal server error")).
Proof.
  destruct (overlapping_creates_store_one 1700000000123
              "2023-11-14T22:13:20.123Z" 1700000000100
              "2023-11-14T22:13:20.100Z" example_url empty_world)
    as [H _].
  - discriminate.
  - vm_compute. reflexivity.
  - vm_compute. reflexivity.
  - exact H.
Defined.

(** X13: Once the store has swept the expired record of a URL, creating the
    URL again inserts a new record under the same short code, with a
    [ttl] counted from the new clock, and answers 201. *)
Theorem swept_record_is_recreated now1 iso1 now2 iso2 now_s ks s w :
  s ≠ "" →
  index_items s (table w) = [] →
  table w !! generate s = None →
  generate s ∈ ks →
  compute_ttl now1 <= now_s →
  let w1 := (create now1 iso1 s w).1 in
  let w2 := ttl_sweep now_s ks w1 in
  let item := mkItem (Some s) (Some (compute_ttl now2)) (Some iso2) 0 in
  table w1 !! generate s
  = Some (mkItem (Some s) (Some (compute_ttl now1)) (Some iso1) 0)
  ∧ table w2 !! generate s = None
  ∧ create now2 iso2 s w2
    = (with_table (<[generate s := item]> (table w2)) w2,
       inr (Json 201 (UrlBody (generate s) s (Some (compute_ttl now2))))).
Proof.
  intros Hs Hq Hk Hin Hexp w1 w2 item.
  assert (Hw1 : w1 = with_table
                       (<[generate s :=
                            mkItem (Some s) (Some (compute_ttl now1))
                                   (Some iso1) 0]> (table w)) w).
  { unfold w1, create. by rewrite (post_url_fresh id now1 iso1 s w Hs Hq Hk). }
  assert (Hgone : table w2 !! generate s = None).
  { unfold w2, ttl_sweep. simpl. apply map_lookup_filter_None. right.
    intros it Hit Hsurv. apply Hsurv. split; [done |].
    rewrite Hw1 in Hit. simpl in Hit. rewrite lookup_insert_eq in Hit.
    injection Hit as <-. unfold expired. simpl. by apply Z.leb_le. }
  assert (Hq2 : index_items s (table w2) = []).
  { apply elem_of_nil_inv. intros [k' it'] Hel.
    apply index_items_elem in Hel as [Hk' Hu'].
    unfold w2, ttl_sweep in Hk'. simpl in Hk'.
    apply map_lookup_filter_Some in Hk' as [Hk' Hsurv].
    rewrite Hw1 in Hk'. simpl in Hk'.
    apply lookup_insert_Some in Hk' as [[<- <-] | [_ Hk']].
    - apply Hsurv. split; [done |]. unfold expired. simpl. by apply Z.leb_le.
    - by apply (index_items_nil s (table w) k' it' Hq Hk'). }
  split_and!; [| done |].
  - rewrite Hw1. simpl. apply lookup_insert_eq.
  - unfold create. by rewrite (post_url_fresh id now2 iso2 s w2 Hs Hq2 Hgone).
Qed.

Lemma swept_record_is_recreated_witness :
  (create 1800000000000 "2027-01-15T08:00:00.000Z" example_url
     (ttl_sweep 1731536000 {[ example_code ]}
        (create 1700000000123 "2023-11-14T22:13:20.123Z" example_url
           empty_world).1)).2
  = inr (Json 201 (UrlBody (generate example_url) example_url
                     (Some (compute_ttl 1800000000000)))).
Proof.
  destruct (swept_record_is_recreated 1700000000123
              "2023-11-14T22:13:20.123Z" 1800000000000
              "2027-01-15T08:00:00.000Z" 1731536000 {[ example_code ]}
              example_url empty_world) as (_ & _ & H).
  - discriminate.
  - vm_compute. reflexivity.
  - vm_compute. reflexivity.
  - vm_compute. set_solver.
  - vm_compute. discriminate.
  - cbv zeta in H. by rewrite H.
Defined.

(** X14: A counter update that reaches the store after its record was swept
    recreates the key with the counter alone.  That item has no [ttl],
    so no sweep removes it; the index does not list it; and every later
    creation of a URL with that short code finds nothing to return, has
    its put rejected, and is answered 500. *)
Theorem late_update_blocks_creation i k w :
  inflight w !! i = Some k →
  table w !! k = None →
  let w' := settle_update i None w in
  table w' !! k = Some (mkItem None None None 1)
  ∧ (∀ now_s ks,
       table (ttl_sweep now_s ks w') !! k = Some (mkItem None None None 1))
  ∧ (∀ now_ms iso s,
       s ≠ "" → generate s = k → index_items s (table w) = [] →
       index_items s (table w') = []
       ∧ (create now_ms iso s w').2
         = inr (Json 500 (ErrorBody "Internal server error"))
       ∧ table (create now_ms iso s w').1 = table w').
Proof.
  intros Hi Hk w'.
  assert (Ht : table w' = <[k := mkItem None None None 1]> (table w)).
  { unfold w', settle_update. rewrite Hi. simpl. apply map_eq. intros k'.
    destruct (decide (k' = k)) as [-> | Hne].
    - by rewrite lookup_partial_alter_eq, lookup_insert_eq, Hk.
    - by rewrite lookup_partial_alter_ne, lookup_insert_ne. }
  assert (Hk' : table w' !! k = Some (mkItem None None None 1))
    by (rewrite Ht; apply lookup_insert_eq).
  split_and!; [done | |].
  - intros now_s ks. unfold ttl_sweep. simpl.
    apply map_lookup_filter_Some. split; [done |].
    intros [_ Hexp]. discriminate Hexp.
  - intros now_ms iso s Hs <- Hq.
    assert (Hq' : index_items s (table w') = [])
      by (rewrite Ht; by apply index_items_empty_insert).
    unfold create.
    rewrite (post_url_conflict id now_ms iso s w' Hs _ Hq' Hk'). done.
Qed.

Lemma late_update_blocks_creation_witness :
  let w := ttl_sweep 1800000000 {[ example_code ]}
             (resolve example_code example_world).1 in
  table (settle_update 0 None w) !! example_code
  = Some (mkItem None None None 1)
  ∧ (create 1800000001000 "2027-01-15T08:00:01.000Z" example_url
       (settle_update 0 None w)).2
    = inr (Json 500 (ErrorBody "Internal server error")).
Proof.
  cbv zeta.
  destruct (late_update_blocks_creation 0 example_code
              (ttl_sweep 1800000000 {[ example_code ]}
                 (resolve example_code example_world).1))
    as (H1 & _ & H3).
  - vm_compute. reflexivity.
  - vm_compute. reflexivity.
  - split; [exact H1 |].
    destruct (H3 1800000001000 "2027-01-15T08:00:01.000Z" example_url)
      as (_ & H & _).
    + discriminate.
    + vm_compute. reflexivity.
    + vm_compute. reflexivity.
    + exact H.
Defined.

(** ** The form *)

Lemma trim_start_all_white1 s : all_white1 s = true → trim_start s = "".
Proof.
  induction s as [| a s IH]; simpl; [done |].
  intros [Ha Hs]%andb_true_iff. rewrite Ha. by apply IH.
Qed.

Lemma trim_all_white1 s : all_white1 s = true → trim s = "".
Proof. intros Hs. unfold trim. by rewrite (trim_start_all_white1 s Hs). Qed.


Section FormFacts.

Variable url_parses : string -> bool.
Variables protocol host : string.

Lemma handleSubmit_sends st :
  trim (ui_longUrl st) ≠ "" →
  url_parses (ui_longUrl st) = true →
  handleSubmit url_parses protocol host st
  = Requested (mkApp (ui_longUrl st) "" "" true) (ui_longUrl st)
      (after_fetch protocol host (mkApp (ui_longUrl st) "" "" true)).
Proof.
  intros Ht Hp. unfold handleSubmit.
  destruct (trim (ui_longUrl st)); [done |]. by rewrite Hp.
Qed.

Lemma or_else_nonempty x fallback : fallback ≠ "" → or_else x fallback ≠ "".
Proof. intros Hf. destruct x as [[| a r] |]; simpl; done. Qed.

Lemma link_nonempty k : link protocol host k ≠ "".
Proof.
  unfold link. destruct protocol; simpl; [| done].
  discriminate.
Qed.

(** X15: A field holding only spaces, tabs and line breaks is never sent:
    the form shows 'Please enter a URL', changes nothing else, and the
    server is not called.  The server on its own does not refuse such a
    string when it is not empty. *)
Theorem blank_input_is_not_sent now_ms iso st w :
  all_white1 (ui_longUrl st) = true →
  submit_to_server url_parses protocol host now_ms iso st w
  = (mkApp (ui_longUrl st) (ui_shortUrl st) "Please enter a URL"
           (ui_loading st), w)
  ∧ (ui_longUrl st ≠ "" →
     ∀ env body,
       (post_url env now_ms iso (JStr (ui_longUrl st)) w).2
       ≠ inr (Json 400 body)).
Proof.
  intros Hw. split.
  - unfold submit_to_server, handleSubmit.
    by rewrite (trim_all_white1 _ Hw).
  - intros Hs env body. set (s := ui_longUrl st) in *.
    destruct (index_items s (table w)) as [| [k0 it0] rest] eqn:Hq.
    + destruct (table (env w) !! generate s) as [r |] eqn:Hk.
      * by rewrite (post_url_conflict env now_ms iso s w Hs r Hq Hk).
      * by rewrite (post_url_fresh env now_ms iso s w Hs Hq Hk).
    + by rewrite (post_url_existing env now_ms iso s w Hs k0 it0 rest Hq).
Qed.

(** X16: Once a request is sent, whatever comes back, the form ends with
    [loading] off and the typed URL untouched, and shows either a link
    and no error (the response was ok) or a non-empty error and no link;
    what was sent is the URL as typed, not trimmed. *)
Theorem submit_shows_link_or_error st fetched :
  trim (ui_longUrl st) ≠ "" →
  url_parses (ui_longUrl st) = true →
  ∃ resume,
    handleSubmit url_parses protocol host st
    = Requested (mkApp (ui_longUrl st) "" "" true) (ui_longUrl st) resume
    ∧ ui_loading (resume fetched) = false
    ∧ ui_longUrl (resume fetched) = ui_longUrl st
    ∧ ((ui_shortUrl (resume fetched) = "" ∧ ui_error (resume fetched) ≠ ""
        ∧ ∀ status data, fetched = FetchJson status data →
                         response_ok status = false)
       ∨ (ui_error (resume fetched) = "" ∧ ui_shortUrl (resume fetched) ≠ ""
          ∧ ∃ status data,
              fetched = FetchJson status data ∧ response_ok status = true
              ∧ ui_shortUrl (resume fetched)
                = link protocol host
                    (default "undefined" (data_shortUrl data)))).
Proof.
  intros Ht Hp. eexists. split; [by apply handleSubmit_sends |].
  unfold after_fetch. destruct fetched as [message | status data].
  - cbn [ui_loading ui_longUrl ui_shortUrl ui_error].
    split_and!; try done. left. split_and!; try done.
    by apply or_else_nonempty.
  - destruct (response_ok status) eqn:Hok;
      cbn [negb ui_loading ui_longUrl ui_shortUrl ui_error].
    + split_and!; try done. right. split_and!; try done.
      * apply link_nonempty.
      * by eexists _, _.
    + split_and!; try done. left. split_and!; try done.
      * by apply or_else_nonempty.
      * intros ? ? [= <- <-]. done.
Qed.

End FormFacts.

Lemma submit_shows_link_or_error_witness :
  ∃ resume,
    handleSubmit (fun _ => true) "https:" "sho.rt"
      (mkApp " https://example.com " "" "" false)
    = Requested (mkApp " https://example.com " "" "" true)
        " https://example.com " resume
    ∧ ui_loading (resume (FetchRejected "Failed to fetch")) = false.
Proof.
  destruct (submit_shows_link_or_error (fun _ => true) "https:" "sho.rt"
              (mkApp " https://example.com " "" "" false)
              (FetchRejected "Failed to fetch"))
    as (resume & H1 & H2 & _).
  - vm_compute. discriminate.
  - reflexivity.
  - exists resume. by split.
Defined.

Lemma blank_input_is_not_sent_witness :
  submit_to_server (fun _ => true) "https:" "sho.rt" 1700000000123
    "2023-11-14T22:13:20.123Z" (mkApp "   " "" "" false) example_world
  = (mkApp "   " "" "Please enter a URL" false, example_world).
Proof.
  destruct (blank_input_is_not_sent (fun _ => true) "https:" "sho.rt"
              1700000000123 "2023-11-14T22:13:20.123Z"
              (mkApp "   " "" "" false) example_world) as [H _].
  - reflexivity.
  - exact H.
Defined.



Example submitted_link_example :
  (submit_to_server (fun _ => true) "https:" "sho.rt" 1700000000123
     "2023-11-14T22:13:20.123Z" (mkApp example_url "" "" false)
     empty_world).1
  = mkApp example_url "https://sho.rt/url/8ec596c44bd62b6b" "" false.
Proof. vm_compute. reflexivity. Qed.
